(** * Offline content pipeline of the presentation library

    A shallow embedding of the download / store / unpack pipeline:
    - [Zip]  : services/zipService.ts  ([processZipContent])
    - [S3]   : services/s3Service.ts   ([joinUrl], [fetchFileList], [downloadFile])
    - [DB]   : services/dbService.ts   ([saveFileToDB], [getFileFromDB], ...)
    - [App]  : App.tsx                 ([handleDownload])

    JavaScript strings are lists of characters.  Code units are modelled
    by the 8-bit type [ascii] (the Latin-1 range of UTF-16 code units).
    Promises are modelled by their outcome: a value or a thrown error. *)

From Stdlib Require Import ZArith Lia List Ascii String Bool DecimalString DecimalNat DecimalFacts Sorted.
From Stdlib Require SpecFloat.
From stdpp Require Import base option list gmap strings.
From Equations Require Import Equations.
From Equations.Prop Require Import Logic.

Set Default Proof Using "Type".
Set Warnings "-register-all".

(** ** JavaScript values shared by all modules *)

Abbreviation jsstring := (list ascii).
Abbreviation bytes := (list Byte.byte).

(** A string literal as a list of characters. *)
Definition js (s : string) : jsstring := list_ascii_of_string s.

Definition dquote : ascii := ascii_of_nat 34.
Definition squote : ascii := ascii_of_nat 39.

(** A rejected promise / thrown exception carries an [Error] with a message. *)
Inductive outcome (A : Type) : Type :=
| Ok (a : A)
| Throw (msg : jsstring).
Arguments Ok {A} a.
Arguments Throw {A} msg.

Module Str.

(** [String.prototype.toLowerCase] on one code unit below 256: the
    letters A-Z and the Latin-1 capitals (192..222 but the
    multiplication sign 215) move up by 32. *)
Definition lower_char (c : ascii) : ascii :=
  let n := nat_of_ascii c in
  if (65 <=? n) && (n <=? 90) then ascii_of_nat (n + 32)
  else if (192 <=? n) && (n <=? 222) && negb (n =? 215) then ascii_of_nat (n + 32)
  else c.

Definition toLowerCase (s : jsstring) : jsstring := map lower_char s.

(** [s.startsWith(p)]: when [p] heads [s], what follows it. *)
Fixpoint stripPrefix (p s : jsstring) : option jsstring :=
  match p, s with
  | [], _ => Some s
  | a :: p', b :: s' => if Ascii.eqb a b then stripPrefix p' s' else None
  | _ :: _, [] => None
  end.

Definition startsWith (s p : jsstring) : bool :=
  match stripPrefix p s with Some _ => true | None => false end.

(** [s.endsWith(suf)]: the last [length suf] code units of [s] are [suf]. *)
Definition endsWith (s suf : jsstring) : bool :=
  (length suf <=? length s) &&
  bool_decide (drop (length s - length suf) s = suf).

End Str.

Module Zip.
Import Str.

(** *** The JSZip interface used by the service

    A loaded archive is the object [loadedZip.files]: entry names in
    key order, each with its directory flag and what the two [async]
    readers used by the service answer. *)
Record ZipObject := {
  name : jsstring;
  dir : bool;
  async_string : outcome jsstring;
  async_blob : outcome bytes
}.

Abbreviation JSZip := (list ZipObject).

(** [Object.keys(loadedZip.files)] *)
Definition keys (z : JSZip) : list jsstring := map name z.

(** [loadedZip.file(name)]: the entry stored under [name], unless it is
    a directory. *)
Definition file (z : JSZip) (n : jsstring) : option ZipObject :=
  match List.find (fun o => bool_decide (name o = n)) z with
  | Some o => if dir o then None else Some o
  | None => None
  end.

(** [loadedZip.file(regex)]: every non-directory entry whose name
    passes the test, in key order.  The entry with the empty name is
    skipped by JSZip's [forEach]. *)
Definition file_re (re : jsstring -> bool) (z : JSZip) : list ZipObject :=
  List.filter (fun o => negb (bool_decide (name o = [])) && negb (dir o) && re (name o)) z.

(** The test [/^index\.html$/i]: the whole name is [index.html] up to
    the case of the letters a-z. *)
Definition upper_ascii (c : ascii) : ascii :=
  let n := nat_of_ascii c in
  if (97 <=? n) && (n <=? 122) then ascii_of_nat (n - 32) else c.

Definition re_index_html (n : jsstring) : bool :=
  bool_decide (map upper_ascii n = js "INDEX.HTML").

Definition is_html (n : jsstring) : bool := endsWith (toLowerCase n) (js ".html").

(** Lines 12-21 of [processZipContent]: the entry point, if any. *)
Definition entryFile (z : JSZip) : option ZipObject :=
  match file_re re_index_html z with
  | o :: _ => Some o
  | [] =>
      match List.filter is_html (keys z) with
      | n :: _ => file z n
      | [] => None
      end
  end.

(** *** Asset classes (lines 52-58) *)

Definition mimeOf (filename : jsstring) : jsstring :=
  let lower := toLowerCase filename in
  if endsWith lower (js ".png") then js "image/png"
  else if endsWith lower (js ".jpg") || endsWith lower (js ".jpeg") then js "image/jpeg"
  else if endsWith lower (js ".svg") then js "image/svg+xml"
  else if endsWith lower (js ".css") then js "text/css"
  else if endsWith lower (js ".js") then js "application/javascript"
  else [].

(** Truthiness of a string: it is not empty. *)
Definition truthy (s : jsstring) : bool :=
  match s with [] => false | _ :: _ => true end.

(** *** The browser's blob URL store

    [URL.createObjectURL] registers the blob under a fresh URL, which
    stays live until [URL.revokeObjectURL] is called on it.  A URL is
    the scheme followed by a serial number in decimal. *)
Record Blob := { blob_type : jsstring; blob_bytes : bytes }.

Record UrlStore := { next_id : nat; live : list (jsstring * Blob) }.

Definition blobUrl (n : nat) : jsstring :=
  js "blob:" ++ js (NilEmpty.string_of_uint (Nat.to_uint n)).

Definition createObjectURL (b : Blob) (u : UrlStore) : jsstring * UrlStore :=
  let url := blobUrl (next_id u) in
  (url, {| next_id := S (next_id u); live := live u ++ [(url, b)] |}).

Definition revokeObjectURL (url : jsstring) (u : UrlStore) : UrlStore :=
  {| next_id := next_id u;
     live := List.filter (fun e => negb (bool_decide (e.1 = url))) (live u) |}.

(** *** Async code over the URL store: a state and exception monad *)
Definition M (A : Type) : Type := UrlStore -> UrlStore * outcome A.

Definition ret {A} (a : A) : M A := fun u => (u, Ok a).
Definition throw {A} (msg : jsstring) : M A := fun u => (u, Throw msg).
Definition bind {A B} (m : M A) (k : A -> M B) : M B :=
  fun u => match m u with
           | (u', Ok a) => k a u'
           | (u', Throw e) => (u', Throw e)
           end.
Definition await {A} (p : outcome A) : M A := fun u => (u, p).

Notation "'let*' x ':=' m 'in' k" := (bind m (fun x => k))
  (at level 10, x name, m at level 100, k at level 200).

(** The helper [createBlobUrl] (lines 37-46). *)
Definition createBlobUrl (loadedZip : JSZip) (fileName mimeType : jsstring)
  : M (option jsstring) :=
  match file loadedZip fileName with
  | Some f =>
      let* blob := await (async_blob f) in
      let typedBlob := {| blob_type := mimeType; blob_bytes := blob |} in
      fun u => let (url, u') := createObjectURL typedBlob u in (u', Ok (Some url))
  | None => ret None
  end.

(** [assetMap[filename] = url] on an object whose keys are file names
    with an extension (never array indices): a present key keeps its
    place, a new key goes last. *)
Fixpoint assign (m : list (jsstring * jsstring)) (k v : jsstring)
  : list (jsstring * jsstring) :=
  match m with
  | [] => [(k, v)]
  | (k', v') :: m' =>
      if bool_decide (k' = k) then (k', v) :: m' else (k', v') :: assign m' k v
  end.

(** The loop of lines 51-66 over the remaining file names. *)
Fixpoint materialize (loadedZip : JSZip) (files : list jsstring)
    (assetMap : list (jsstring * jsstring)) : M (list (jsstring * jsstring)) :=
  match files with
  | [] => ret assetMap
  | filename :: files' =>
      let mime := mimeOf filename in
      if truthy mime then
        let* url := createBlobUrl loadedZip filename mime in
        match url with
        | Some u =>
            if truthy u then materialize loadedZip files' (assign assetMap filename u)
            else materialize loadedZip files' assetMap
        | None => materialize loadedZip files' assetMap
        end
      else materialize loadedZip files' assetMap
  end.

(** *** The rewriting pass (lines 72-80)

    The pattern built for a file name reads: [src] or [href] (group
    1), an equals sign, a double or single quote, optionally [./]
    (group 2), the file name, a double or single quote.  The name has
    every regular-expression metacharacter escaped, so that it stands
    for itself.  [exec] runs the pattern at the head of [s] with the
    matcher's priorities: [src] before [href], the optional [./] taken
    before it is given up. *)
Definition isQuote (c : ascii) : bool := Ascii.eqb c dquote || Ascii.eqb c squote.

Definition quote (s : jsstring) : option (ascii * jsstring) :=
  match s with
  | c :: r => if isQuote c then Some (c, r) else None
  | [] => None
  end.

Definition nameQuote (nm s : jsstring) : option (ascii * jsstring) :=
  match stripPrefix nm s with
  | Some r => quote r
  | None => None
  end.

Record RegExpMatch := {
  g1 : jsstring;            (* capture 1: the attribute *)
  q1 : ascii;               (* opening quote *)
  g2 : option jsstring;     (* capture 2: the optional ./ *)
  q2 : ascii;               (* closing quote *)
  rest : jsstring           (* the text after the match *)
}.

Definition optionalDot (nm s : jsstring) : option (option jsstring * ascii * jsstring) :=
  let without :=
    match nameQuote nm s with
    | Some (b, r) => Some (None, b, r)
    | None => None
    end in
  match stripPrefix (js "./") s with
  | Some s' =>
      match nameQuote nm s' with
      | Some (b, r) => Some (Some (js "./"), b, r)
      | None => without
      end
  | None => without
  end.

Definition afterAttr (nm attr s : jsstring) : option RegExpMatch :=
  match stripPrefix attr s with
  | Some s0 =>
      match stripPrefix (js "=") s0 with
      | Some s1 =>
          match quote s1 with
          | Some (a, s2) =>
              match optionalDot nm s2 with
              | Some (g, b, r) =>
                  Some {| g1 := attr; q1 := a; g2 := g; q2 := b; rest := r |}
              | None => None
              end
          | None => None
          end
      | None => None
      end
  | None => None
  end.

Definition exec (nm s : jsstring) : option RegExpMatch :=
  match afterAttr nm (js "src") s with
  | Some m => Some m
  | None => afterAttr nm (js "href") s
  end.

(** The text a match covers. *)
Definition matched (nm : jsstring) (m : RegExpMatch) : jsstring :=
  g1 m ++ js "=" ++ [q1 m] ++ default [] (g2 m) ++ nm ++ [q2 m].

(** [GetSubstitution]: expansion of the [$] patterns of a replacement
    template, for a pattern without named groups. *)
Definition digit (c : ascii) : option nat :=
  let n := nat_of_ascii c in
  if (48 <=? n) && (n <=? 57) then Some (n - 48) else None.

Definition capture (caps : list (option jsstring)) (i : nat) : option jsstring :=
  match i with
  | 0 => None
  | S k => match caps !! k with
           | Some c => Some (default [] c)
           | None => None
           end
  end.

Definition dollar : ascii := ascii_of_nat 36.

Fixpoint getSubstitution (mt pre post : jsstring) (caps : list (option jsstring))
    (tpl : jsstring) : jsstring :=
  match tpl with
  | [] => []
  | c :: t =>
      if negb (Ascii.eqb c dollar) then c :: getSubstitution mt pre post caps t
      else
        match t with
        | [] => [c]
        | d :: t' =>
            if Ascii.eqb d dollar then dollar :: getSubstitution mt pre post caps t'
            else if Ascii.eqb d (ascii_of_nat 38) then mt ++ getSubstitution mt pre post caps t'
            else if Ascii.eqb d (ascii_of_nat 96) then pre ++ getSubstitution mt pre post caps t'
            else if Ascii.eqb d (ascii_of_nat 39) then post ++ getSubstitution mt pre post caps t'
            else
              match digit d with
              | None => c :: getSubstitution mt pre post caps t
              | Some n1 =>
                  let one :=
                    match capture caps n1 with
                    | Some r => r ++ getSubstitution mt pre post caps t'
                    | None => c :: d :: getSubstitution mt pre post caps t'
                    end in
                  match t' with
                  | e :: t'' =>
                      match digit e with
                      | Some n2 =>
                          if length caps <? 10 * n1 + n2 then one
                          else
                            match capture caps (10 * n1 + n2) with
                            | Some r => r ++ getSubstitution mt pre post caps t''
                            | None => c :: d :: e :: getSubstitution mt pre post caps t''
                            end
                      | None => one
                      end
                  | [] => one
                  end
              end
        end
  end.

(** [s.replace(regex, tpl)] with the global flag: the scan resumes
    after each match; [pre] is the text already scanned. *)
Equations? replaceFrom (nm tpl pre s : jsstring) : jsstring by wf (length s) lt :=
  replaceFrom nm tpl pre [] := [];
  replaceFrom nm tpl pre (c :: s') with inspect (exec nm (c :: s')) := {
    | exist _ (Some m) _ =>
        getSubstitution (matched nm m) pre (rest m) [Some (g1 m); g2 m] tpl
          ++ replaceFrom nm tpl (pre ++ matched nm m) (rest m)
    | exist _ None _ => c :: replaceFrom nm tpl (pre ++ [c]) s' }.
Proof.
  - assert (Hstrip : forall p t r, stripPrefix p t = Some r -> length t = length p + length r).
    { induction p as [|a p IH]; intros t r; simpl.
      - intros [= <-]. reflexivity.
      - destruct t as [|b t]; [congruence|].
        destruct (Ascii.eqb a b); [|congruence].
        intros H. apply IH in H. simpl. lia. }
    assert (Hquote : forall t a r, quote t = Some (a, r) -> length t = S (length r)).
    { intros [|b t] a r; simpl; [congruence|].
      destruct (isQuote b); congruence. }
    assert (Hnq : forall t b r, nameQuote nm t = Some (b, r) -> length r < length t).
    { intros t b r. unfold nameQuote.
      destruct (stripPrefix nm t) as [t'|] eqn:E; [|congruence].
      intros E'. apply Hstrip in E. apply Hquote in E'. lia. }
    assert (Hdot : forall t g b r, optionalDot nm t = Some (g, b, r) -> length r < length t).
    { intros t g b r. unfold optionalDot.
      destruct (stripPrefix (js "./") t) as [t'|] eqn:E.
      - apply Hstrip in E.
        destruct (nameQuote nm t') as [[b' r']|] eqn:E'.
        + intros [= <- <- <-]. apply Hnq in E'. lia.
        + destruct (nameQuote nm t) as [[b' r']|] eqn:E''; [|congruence].
          intros [= <- <- <-]. apply Hnq in E''. lia.
      - destruct (nameQuote nm t) as [[b' r']|] eqn:E''; [|congruence].
        intros [= <- <- <-]. apply Hnq in E''. lia. }
    assert (Hattr : forall attr t,
               afterAttr nm attr t = Some m -> length (rest m) < length t).
    { intros attr t. unfold afterAttr.
      destruct (stripPrefix attr t) as [s0|] eqn:E0; [|congruence].
      destruct (stripPrefix (js "=") s0) as [s1|] eqn:E1; [|congruence].
      destruct (quote s1) as [[a s2]|] eqn:E2; [|congruence].
      destruct (optionalDot nm s2) as [[[g b] r]|] eqn:E3; [|congruence].
      intros [= <-]. simpl.
      apply Hstrip in E0, E1. apply Hquote in E2. apply Hdot in E3. lia. }
    unfold exec in e.
    destruct (afterAttr nm (js "src") (c :: s')) as [m'|] eqn:Es.
    + injection e as ->. apply Hattr in Es. simpl in Es. lia.
    + apply Hattr in e. simpl in e. lia.
Qed.

(** The body of the [forEach] for one asset. *)
Definition template (url : jsstring) : jsstring :=
  js "$1=" ++ [dquote] ++ url ++ [dquote].

Definition replaceAsset (htmlContent : jsstring) (asset : jsstring * jsstring) : jsstring :=
  replaceFrom asset.1 (template asset.2) [] htmlContent.

Definition noHtmlMessage : jsstring := js "No HTML file found in the archive.".

(** *** [processZipContent]

    The argument is what [zip.loadAsync(zipData)] answers. *)
Definition processZipContent (loaded : outcome JSZip) : M jsstring :=
  let* loadedZip := await loaded in
  match entryFile loadedZip with
  | None => throw noHtmlMessage
  | Some entry =>
      let* htmlContent := await (async_string entry) in
      let files := keys loadedZip in
      let* assetMap := materialize loadedZip files [] in
      ret (fold_left replaceAsset assetMap htmlContent)
  end.

(** *** Properties the theorems are stated with *)

(** The entries the loop makes a handle for. *)
Definition isAsset (o : ZipObject) : bool :=
  negb (dir o) && truthy (mimeOf (name o)).

(** A root-level [index.html], up to the case of its letters. *)
Definition rootIndex (o : ZipObject) : Prop :=
  dir o = false /\ map upper_ascii (name o) = js "INDEX.HTML".

Definition htmlName (o : ZipObject) : Prop :=
  exists p, toLowerCase (name o) = p ++ js ".html".

(** [Occurrence nm attr t]: [t] is the attribute [attr] with the value
    [nm], or [./] and [nm], between two quotes of either kind. *)
Inductive Occurrence (nm : jsstring) : jsstring -> jsstring -> Prop :=
| occurrence attr a b dot :
    attr = js "src" \/ attr = js "href" ->
    isQuote a = true -> isQuote b = true ->
    dot = [] \/ dot = js "./" ->
    Occurrence nm attr (attr ++ js "=" ++ [a] ++ dot ++ nm ++ [b]).

Definition occursAtHead (nm s : jsstring) : Prop :=
  exists attr t r, Occurrence nm attr t /\ s = t ++ r.

(** [Rewritten nm url s s']: reading [s] from the left, every
    occurrence met is replaced by the attribute with [url] between
    double quotes, and every other character is copied. *)
Inductive Rewritten (nm url : jsstring) : jsstring -> jsstring -> Prop :=
| rw_end : Rewritten nm url [] []
| rw_copy c s s' :
    ~ occursAtHead nm (c :: s) ->
    Rewritten nm url s s' ->
    Rewritten nm url (c :: s) (c :: s')
| rw_hit attr t r r' :
    Occurrence nm attr t ->
    Rewritten nm url r r' ->
    Rewritten nm url (t ++ r) (attr ++ js "=" ++ [dquote] ++ url ++ [dquote] ++ r').

(** One pass per asset, in the order of the asset map. *)
Inductive Passes : list (jsstring * jsstring) -> jsstring -> jsstring -> Prop :=
| passes_nil h : Passes [] h h
| passes_cons nm url am h h1 h2 :
    Rewritten nm url h h1 ->
    Passes am h1 h2 ->
    Passes ((nm, url) :: am) h h2.

(** The handles made for a list of readable assets, numbered from [n]. *)
Fixpoint handlesFor (n : nat) (assets : list ZipObject) : list (jsstring * Blob) :=
  match assets with
  | [] => []
  | o :: assets' =>
      match async_blob o with
      | Ok b => (blobUrl n, {| blob_type := mimeOf (name o); blob_bytes := b |})
                  :: handlesFor (Datatypes.S n) assets'
      | Throw _ => []
      end
  end.

(** The error of the first unreadable asset, if any. *)
Fixpoint firstFailure (assets : list ZipObject) : option jsstring :=
  match assets with
  | [] => None
  | o :: assets' =>
      match async_blob o with
      | Ok _ => firstFailure assets'
      | Throw msg => Some msg
      end
  end.

(** The extension table. *)
Definition mimeTable : list (jsstring * jsstring) :=
  [ (js ".png", js "image/png");
    (js ".jpg", js "image/jpeg");
    (js ".jpeg", js "image/jpeg");
    (js ".svg", js "image/svg+xml");
    (js ".css", js "text/css");
    (js ".js", js "application/javascript") ].

(** *** The rules as the specification words them *)
Module Spec.

(** The part of a path after its last slash. *)
Fixpoint basename (n : jsstring) : jsstring :=
  match n with
  | [] => []
  | c :: r =>
      if existsb (Ascii.eqb (ascii_of_nat 47)) r then basename r
      else if Ascii.eqb c (ascii_of_nat 47) then r else n
  end.

(** A file named [index.html] at any depth, whatever the case; else
    the first entry whose path ends in [.html] or [.htm]. *)
Definition entryFile (z : JSZip) : option ZipObject :=
  match List.filter (fun o => negb (dir o) &&
            bool_decide (toLowerCase (basename (name o)) = js "index.html")) z with
  | o :: _ => Some o
  | [] =>
      match List.filter (fun o => negb (dir o) &&
               (endsWith (toLowerCase (name o)) (js ".html")
                || endsWith (toLowerCase (name o)) (js ".htm"))) z with
      | o :: _ => Some o
      | [] => None
      end
  end.

(** The four attribute forms for a path, and for the path after [./]. *)
Definition forms (path : jsstring) : list jsstring :=
  attr ← [js "src"; js "href"];
  q ← [dquote; squote];
  p ← [path; js "./" ++ path];
  [attr ++ js "=" ++ [q] ++ p ++ [q]].

(** [occurs f s]: [f] is a substring of [s]. *)
Fixpoint occurs (f s : jsstring) : bool :=
  startsWith s f ||
  match s with
  | [] => false
  | _ :: s' => occurs f s'
  end.

End Spec.

End Zip.

(** ** types.ts as the services use it *)
Module Types.

(** A JavaScript value as [JSON.parse] builds it.  Numbers are
    modelled by integers. *)
Inductive JSValue :=
| VUndefined
| VNull
| VBool (b : bool)
| VNumber (z : Z)
| VString (s : jsstring)
| VArray (items : list JSValue)
| VObject (props : list (jsstring * JSValue)).

Definition truthy (v : JSValue) : bool :=
  match v with
  | VUndefined | VNull => false
  | VBool b => b
  | VNumber z => negb (z =? 0)%Z
  | VString s => negb (bool_decide (s = []))
  | VArray _ | VObject _ => true
  end.

(** [a || b] *)
Definition or_else (a b : JSValue) : JSValue := if truthy a then a else b.

Inductive Status := remote | downloading | ready | error.

Record FileItem := {
  id : JSValue;
  key : JSValue;
  title : JSValue;
  sizeLabel : JSValue;
  thumbnailUrl : option jsstring;
  status : Status;
  downloadProgress : option Z;
  errorMsg : option jsstring;
  localUrl : option jsstring
}.

(** A JavaScript number that may be [NaN]. *)
Inductive number := NaN | Num (z : Z).

(** [x > 0] *)
Definition positive (x : number) : bool :=
  match x with NaN => false | Num z => (0 <? z)%Z end.

End Types.

Module S3.
Import Str Types.

Definition slash : ascii := ascii_of_nat 47.

(** [baseUrl.replace] of [/\/+$/] by the empty string: the trailing
    slashes go. *)
Fixpoint stripTrailingSlashes (s : jsstring) : jsstring :=
  match s with
  | [] => []
  | c :: r =>
      match stripTrailingSlashes r with
      | [] => if Ascii.eqb c slash then [] else [c]
      | r' => c :: r'
      end
  end.

(** [path.replace] of [/^(\.\/|\/)+/] by the empty string: the leading
    run of [./] and [/] goes. *)
Fixpoint stripLeading (s : jsstring) : jsstring :=
  match s with
  | c :: r =>
      if Ascii.eqb c slash then stripLeading r
      else if Ascii.eqb c (ascii_of_nat 46) then
        match r with
        | d :: r' => if Ascii.eqb d slash then stripLeading r' else s
        | [] => s
        end
      else s
  | [] => []
  end.

Definition joinUrl (baseUrl path : jsstring) : jsstring :=
  if bool_decide (path = []) then baseUrl
  else if startsWith path (js "http://") || startsWith path (js "https://") then path
  else
    let cleanBase := stripTrailingSlashes baseUrl in
    let cleanPath := stripLeading path in
    cleanBase ++ [slash] ++ cleanPath.

(** *** The fetch API as the service uses it *)

(** What successive [reader.read()] calls answer. *)
Inductive Stream :=
| Done
| Chunk (value : bytes) (next : Stream)
| Fail (msg : jsstring).

Record Response := {
  ok : bool;
  http_status : Z;
  statusText : jsstring;
  contentLength : option jsstring;   (* headers.get('Content-Length') *)
  json : outcome JSValue;            (* response.json() *)
  arrayBuffer : outcome bytes;       (* response.arrayBuffer() *)
  body : option Stream               (* response.body *)
}.

(** *** [parseInt(s, 10)]

    The value is the mathematical integer the digits write.  The code's
    number is the double nearest to it: the same number up to 2^53. *)
Definition isWhite (c : ascii) : bool :=
  let n := nat_of_ascii c in
  ((9 <=? n) && (n <=? 13)) || (n =? 32) || (n =? 160).

Fixpoint trimStart (s : jsstring) : jsstring :=
  match s with
  | c :: r => if isWhite c then trimStart r else s
  | [] => []
  end.

Definition digit (c : ascii) : option Z :=
  let n := nat_of_ascii c in
  if (48 <=? n) && (n <=? 57) then Some (Z.of_nat (n - 48)) else None.

(** The value of the longest run of digits heading [s], if not empty. *)
Fixpoint digits (acc : option Z) (s : jsstring) : option Z :=
  match s with
  | c :: r =>
      match digit c with
      | Some d => digits (Some (10 * default 0%Z acc + d)%Z) r
      | None => acc
      end
  | [] => acc
  end.

Definition parseInt (s : jsstring) : number :=
  let t := trimStart s in
  let (sign, u) :=
    match t with
    | c :: r =>
        if Ascii.eqb c (ascii_of_nat 45) then ((-1)%Z, r)
        else if Ascii.eqb c (ascii_of_nat 43) then (1%Z, r)
        else (1%Z, t)
    | [] => (1%Z, t)
    end in
  match digits None u with
  | Some n => Num (sign * n)
  | None => NaN
  end.

(** *** [fetchFileList] *)

(** An engine [TypeError].  The token stands for the kind of the
    error: the wording of its message is the engine's own. *)
Definition typeError : jsstring := js "TypeError".

(** [item.k] for a key other than a built-in property name. *)
Definition get (item : JSValue) (k : jsstring) : outcome JSValue :=
  match item with
  | VUndefined | VNull => Throw typeError
  | VObject props =>
      match List.find (fun p => bool_decide (p.1 = k)) props with
      | Some p => Ok p.2
      | None => Ok VUndefined
      end
  | _ => Ok VUndefined
  end.

Definition bindO {A B} (m : outcome A) (k : A -> outcome B) : outcome B :=
  match m with
  | Ok a => k a
  | Throw e => Throw e
  end.

Notation "'let?' x ':=' m 'in' k" := (bindO m (fun x => k))
  (at level 10, x name, m at level 100, k at level 200).

(** The callback of [data.map] (lines 41-53). *)
Definition toFileItem (baseUrl : jsstring) (item : JSValue) : outcome FileItem :=
  let? thumbnail := get item (js "thumbnail") in
  let? thumbUrl :=
    (if truthy thumbnail then
       match thumbnail with
       | VString path => Ok (Some (joinUrl baseUrl path))
       | _ => Throw typeError
       end
     else Ok None) in
  let? id_ := get item (js "id") in
  let? file_ := get item (js "file") in
  let? title_ := get item (js "title") in
  let? size_ := get item (js "size") in
  Ok {| id := or_else id_ file_;
        key := file_;
        title := or_else title_ file_;
        sizeLabel := or_else size_ (VString (js "Unknown"));
        thumbnailUrl := thumbUrl;
        status := remote;
        downloadProgress := None;
        errorMsg := None;
        localUrl := None |}.

Fixpoint mapM {A B} (f : A -> outcome B) (l : list A) : outcome (list B) :=
  match l with
  | [] => Ok []
  | a :: l' => let? b := f a in let? bs := mapM f l' in Ok (b :: bs)
  end.

Section Fetch.
(** [fetch(url)] as the network answers it. *)
Variable fetch : jsstring -> outcome Response.

Definition fetchFileList (baseUrl : jsstring) : outcome (list FileItem) :=
  let manifestUrl := joinUrl baseUrl (js "library.json") in
  let? response := fetch manifestUrl in
  if negb (ok response) then
    if (http_status response =? 404)%Z then Throw (js "library.json not found at this URL.")
    else Throw (js "Failed to load library: " ++ statusText response)
  else
    let? data := json response in
    match data with
    | VArray items => mapM (toFileItem baseUrl) items
    | _ => Throw (js "Invalid library format. Expected a JSON array.")
    end.

(** *** [downloadFile]

    The progress callback, when supplied, acts on a state of the
    caller's choosing. *)
Section Progress.
Context {S : Type}.
Variable onProgress : option (Z -> number -> S -> S).

Definition call (received : Z) (total : number) (s : S) : S :=
  match onProgress with
  | Some f => f received total s
  | None => s
  end.

(** The [while] loop of lines 92-101. *)
Fixpoint readLoop (total : number) (reader : Stream) (chunks : list bytes)
    (received : Z) (s : S) : S * outcome (list bytes * Z) :=
  match reader with
  | Done => (s, Ok (chunks, received))
  | Fail msg => (s, Throw msg)
  | Chunk value next =>
      let chunks' := chunks ++ [value] in
      let received' := (received + Z.of_nat (length value))%Z in
      readLoop total next chunks' received' (call received' total s)
  end.

(** [allChunks.set(chunk, position)]: out of range is a [RangeError]. *)
Definition set (allChunks chunk : bytes) (position : nat) : outcome bytes :=
  if position + length chunk <=? length allChunks
  then Ok (list_inserts position chunk allChunks)
  else Throw (js "RangeError").

(** The [for] loop of lines 106-109. *)
Fixpoint combine (chunks : list bytes) (allChunks : bytes) (position : nat)
  : outcome bytes :=
  match chunks with
  | [] => Ok allChunks
  | chunk :: chunks' =>
      let? allChunks' := set allChunks chunk position in
      combine chunks' allChunks' (position + length chunk)
  end.

(** Lines 77-78: the announced size, 0 when the header is absent
    or empty. *)
Definition totalOf (response : Response) : number :=
  match contentLength response with
  | Some h => if bool_decide (h = []) then Num 0 else parseInt h
  | None => Num 0
  end.

Definition downloadFile (baseUrl fileName : jsstring) (s : S) : S * outcome bytes :=
  let fileUrl := joinUrl baseUrl fileName in
  match fetch fileUrl with
  | Throw e => (s, Throw e)
  | Ok response =>
      if negb (ok response) then
        (s, Throw (js "Failed to download file: " ++ statusText response))
      else
        let total := totalOf response in
        match body response, onProgress with
        | Some stream, Some _ =>
            match readLoop total stream [] 0%Z s with
            | (s', Throw e) => (s', Throw e)
            | (s', Ok (chunks, received)) =>
                let allChunks := replicate (Z.to_nat received) Byte.x00 in
                (s', combine chunks allChunks 0)
            end
        | _, _ =>
            match arrayBuffer response with
            | Throw e => (s, Throw e)
            | Ok buf =>
                match onProgress with
                | Some f =>
                    if positive total
                    then match total with
                         | Num t => (f t total s, Ok buf)
                         | NaN => (s, Ok buf)
                         end
                    else (s, Ok buf)
                | None => (s, Ok buf)
                end
            end
        end
  end.
End Progress.
End Fetch.

(** The chunks a stream delivers, and the error that ends it, if any. *)
Fixpoint delivered (reader : Stream) : list bytes :=
  match reader with
  | Chunk value next => value :: delivered next
  | Done | Fail _ => []
  end.

Fixpoint failure (reader : Stream) : option jsstring :=
  match reader with
  | Done => None
  | Fail msg => Some msg
  | Chunk _ next => failure next
  end.

(** A stream that delivers the given chunks and then ends. *)
Definition streamOf (chunks : list bytes) : Stream := foldr Chunk Done chunks.

(** A callback that records its calls, in order. *)
Definition record (received : Z) (total : number) (calls : list (Z * number))
  : list (Z * number) := calls ++ [(received, total)].

(** The values of [received] after each of the chunks. *)
Fixpoint runningSums (received : Z) (chunks : list bytes) : list Z :=
  match chunks with
  | [] => []
  | value :: chunks' =>
      let received' := (received + Z.of_nat (length value))%Z in
      received' :: runningSums received' chunks'
  end.

End S3.

Module DB.

(** What the object store [files] of the database [CloudZipDB] can
    hold under a key. *)
Inductive Stored :=
| SBlob (type : jsstring) (data : bytes)
| SBytes (data : bytes)
| SOther.

(** How IndexedDB behaves during one call: the database opens and the
    request succeeds, or one of the two reports an error. *)
Inductive Fault :=
| NoFault
| OpenError (msg : jsstring)
| RequestError (msg : jsstring).

Definition openDB (f : Fault) : outcome unit :=
  match f with
  | OpenError msg => Throw msg
  | _ => Ok tt
  end.

Definition request {A} (f : Fault) (result : A) : outcome A :=
  match f with
  | RequestError msg => Throw msg
  | _ => Ok result
  end.

Definition saveFileToDB (f : Fault) (key : jsstring) (data : bytes)
    (store : gmap jsstring Stored) : gmap jsstring Stored * outcome unit :=
  match openDB f with
  | Throw e => (store, Throw e)
  | Ok _ =>
      let blob := SBlob (js "application/zip") data in
      match request f tt with
      | Throw e => (store, Throw e)
      | Ok _ => (<[key := blob]> store, Ok tt)
      end
  end.

(** The answer is [Some] bytes, or [None] for [null]. *)
Definition getFileFromDB (f : Fault) (key : jsstring)
    (store : gmap jsstring Stored) : outcome (option bytes) :=
  match openDB f with
  | Throw e => Throw e
  | Ok _ =>
      match request f (store !! key) with
      | Throw e => Throw e
      | Ok (Some (SBlob _ data)) => Ok (Some data)
      | Ok (Some (SBytes data)) => Ok (Some data)
      | Ok _ => Ok None
      end
  end.

Definition getStoredKeys (f : Fault) (store : gmap jsstring Stored)
  : outcome (list jsstring) :=
  match openDB f with
  | Throw e => Throw e
  | Ok _ => request f (map fst (map_to_list store))
  end.

Definition deleteFileFromDB (f : Fault) (key : jsstring)
    (store : gmap jsstring Stored) : gmap jsstring Stored * outcome unit :=
  match openDB f with
  | Throw e => (store, Throw e)
  | Ok _ =>
      match request f tt with
      | Throw e => (store, Throw e)
      | Ok _ => (delete key store, Ok tt)
      end
  end.

End DB.

(** ** Numbers in double precision

    The arithmetic of the code's numbers where rounding matters: IEEE
    754 binary64, as the Standard Library's [SpecFloat] specifies it. *)
Module Double.

Definition prec : Z := 53.
Definition emax : Z := 1024.

(** The double nearest to an integer. *)
Definition of_Z (z : Z) : SpecFloat.spec_float :=
  SpecFloat.binary_normalize prec emax z 0 false.

(** [x / y] and [x * y] *)
Definition div : SpecFloat.spec_float -> SpecFloat.spec_float -> SpecFloat.spec_float :=
  SpecFloat.SFdiv prec emax.

Definition mul : SpecFloat.spec_float -> SpecFloat.spec_float -> SpecFloat.spec_float :=
  SpecFloat.SFmul prec emax.

(** [Math.round(x)] for a finite [x]: the nearest integer, the upper
    one at a tie.  There is no integer for [NaN] and the infinities. *)
Definition round (x : SpecFloat.spec_float) : option Z :=
  match x with
  | SpecFloat.S754_zero _ => Some 0%Z
  | SpecFloat.S754_finite s m e =>
      let n := if s then Z.neg m else Z.pos m in
      Some match e with
           | Z.neg k => ((2 * n + 2 ^ Z.pos k) / 2 ^ (Z.pos k + 1))%Z
           | _ => (n * 2 ^ e)%Z
           end
  | _ => None
  end.


End Double.

Module App.
Import Types.

Record AppConfig := { url : jsstring }.

(** [f.key === key] for a string [key] *)
Definition hasKey (k : jsstring) (f : FileItem) : bool :=
  match key f with
  | VString s => bool_decide (s = k)
  | _ => false
  end.

(** [prev.map(f => f.key === key ? upd(f) : f)] *)
Definition update (k : jsstring) (upd : FileItem -> FileItem) (prev : list FileItem)
  : list FileItem :=
  map (fun f => if hasKey k f then upd f else f) prev.

Definition with_status (st : Status) (progress : option Z) (f : FileItem) : FileItem :=
  {| id := id f; key := key f; title := title f; sizeLabel := sizeLabel f;
     thumbnailUrl := thumbnailUrl f; status := st; downloadProgress := progress;
     errorMsg := errorMsg f; localUrl := localUrl f |}.

Definition with_progress (progress : option Z) (f : FileItem) : FileItem :=
  with_status (status f) progress f.

Definition with_error (msg : jsstring) (f : FileItem) : FileItem :=
  {| id := id f; key := key f; title := title f; sizeLabel := sizeLabel f;
     thumbnailUrl := thumbnailUrl f; status := error;
     downloadProgress := downloadProgress f;
     errorMsg := Some msg; localUrl := localUrl f |}.

(** The component state a download touches, with the closure variable
    [lastUpdate] and the number of clock readings taken so far. *)
Record State := {
  files : list FileItem;
  store : gmap jsstring DB.Stored;
  lastUpdate : Z;
  ticks : nat
}.

Definition setFiles (g : list FileItem -> list FileItem) (s : State) : State :=
  {| files := g (files s); store := store s;
     lastUpdate := lastUpdate s; ticks := ticks s |}.

Section Download.
Variable fetch : jsstring -> outcome S3.Response.
(** [Date.now()] at its n-th call *)
Variable clock : nat -> Z.
Variable fault : DB.Fault.

(** [Math.min(Math.round((received / total) * 100), 99)], computed in
    double precision as the code does, for a count of bytes received
    and a positive total: the product is then a number that is not
    negative, or [+Infinity], for which the minimum is 99. *)
Definition percentage (received total : Z) : Z :=
  let ratio := Double.div (Double.of_Z received) (Double.of_Z total) in
  match Double.round (Double.mul ratio (Double.of_Z 100)) with
  | Some n => Z.min n 99
  | None => 99
  end.

(** The callback of lines 96-109. *)
Definition onProgress (k : jsstring) (received : Z) (total : number) (s : State)
  : State :=
  let now := clock (ticks s) in
  let s1 := {| files := files s; store := store s;
               lastUpdate := lastUpdate s; ticks := Datatypes.S (ticks s) |} in
  match total with
  | Num t =>
      if (100 <? now - lastUpdate s)%Z && (0 <? t)%Z then
        let p := percentage received t in
        {| files := map (fun f =>
                      if hasKey k f && negb (bool_decide (downloadProgress f = Some p))
                      then with_progress (Some p) f else f) (files s);
           store := store s; lastUpdate := now; ticks := Datatypes.S (ticks s) |}
      else s1
  | NaN => s1
  end.

(** Lines 90-94: the item is marked as downloading and the
    throttle starts at 0. *)
Definition start (k : jsstring) (s : State) : State :=
  let s0 := setFiles (update k (with_status downloading (Some 0%Z))) s in
  {| files := files s0; store := store s0; lastUpdate := 0; ticks := ticks s0 |}.

Definition handleDownload (config : option AppConfig) (k : jsstring) (s : State)
  : State :=
  match config with
  | None => s
  | Some cfg =>
      let s1 := start k s in
      let failed := setFiles (update k (with_error (js "Download failed"))) in
      match S3.downloadFile fetch (Some (onProgress k)) (url cfg) k s1 with
      | (s2, Throw _) => failed s2
      | (s2, Ok zipData) =>
          let s3 := setFiles (update k (with_progress (Some 100%Z))) s2 in
          match DB.saveFileToDB fault k zipData (store s3) with
          | (_, Throw _) => failed s3
          | (store', Ok _) =>
              let s4 := {| files := files s3; store := store';
                           lastUpdate := lastUpdate s3; ticks := ticks s3 |} in
              setFiles (update k (with_status ready None)) s4
          end
      end
  end.
End Download.

(** *** Properties the theorems are stated with *)

(** The fields a download never writes. *)
Definition sameItem (f f' : FileItem) : Prop :=
  id f' = id f /\ key f' = key f /\ title f' = title f /\
  sizeLabel f' = sizeLabel f /\ thumbnailUrl f' = thumbnailUrl f /\
  localUrl f' = localUrl f.

(** What the steps of a download of [k] may change in an item. *)
Definition touched (k : jsstring) (f f' : FileItem) : Prop :=
  sameItem f f' /\ (hasKey k f = false -> f' = f).

(** What a failed download of [k] leaves of an item [f]. *)
Definition markedFailed (k : jsstring) (f f' : FileItem) : Prop :=
  if hasKey k f
  then sameItem f f' /\ status f' = error /\ errorMsg f' = Some (js "Download failed")
  else f' = f.

End App.

(** ** Sample inputs *)
Module Samples.
Import Types.

(** *** Archives *)
Definition entry (n : string) (text : jsstring) : Zip.ZipObject :=
  {| Zip.name := js n; Zip.dir := false;
     Zip.async_string := Ok text; Zip.async_blob := Ok [] |}.

Definition corrupt (n : string) : Zip.ZipObject :=
  {| Zip.name := js n; Zip.dir := false;
     Zip.async_string := Throw (js "Corrupted zip");
     Zip.async_blob := Throw (js "Corrupted zip") |}.

Definition folder (n : string) : Zip.ZipObject :=
  {| Zip.name := js n; Zip.dir := true;
     Zip.async_string := Ok []; Zip.async_blob := Ok [] |}.

Definition img (src : jsstring) : jsstring :=
  js "<img src=" ++ [dquote] ++ src ++ [dquote] ++ js ">".

(** A page with a reference to an asset of the archive and one to a
    file that is missing. *)
Definition page : jsstring := img (js "./logo.png") ++ img (js "missing.png").

Definition archive : Zip.JSZip :=
  [entry "index.html" page; folder "img/"; entry "logo.png" []; entry "movie.gif" []].

Definition noUrls : Zip.UrlStore := {| Zip.next_id := 0; Zip.live := [] |}.

Definition pngBlob : Zip.Blob := {| Zip.blob_type := js "image/png"; Zip.blob_bytes := [] |}.

Definition oneUrl : Zip.UrlStore :=
  {| Zip.next_id := 1; Zip.live := [(js "blob:0", pngBlob)] |}.

Definition resolvedPage : jsstring := img (js "blob:0") ++ img (js "missing.png").

(** An index.html below the root, listed after another page. *)
Definition nested : Zip.JSZip := [entry "a.html" []; entry "docs/index.html" []].

Definition onlyHtm : Zip.JSZip := [entry "other.htm" []].

(** An attribute value opened with a double and closed with a single quote. *)
Definition mixedQuotes : jsstring := js "<img src=" ++ [dquote] ++ js "logo.png'>".

(** An archive whose second asset cannot be read. *)
Definition halfRead : Zip.JSZip :=
  [entry "index.html" page; entry "logo.png" []; corrupt "style.css"].

(** *** Responses *)
Definition response (len : option jsstring) (reader : option S3.Stream)
    (data : outcome JSValue) : S3.Response :=
  {| S3.ok := true; S3.http_status := 200; S3.statusText := js "OK";
     S3.contentLength := len; S3.json := data;
     S3.arrayBuffer := Ok []; S3.body := reader |}.

Definition chunk1 : bytes := [Byte.x50; Byte.x4b].
Definition chunk2 : bytes := [Byte.x03; Byte.x04; Byte.x14].

(** A body of five bytes in two chunks, announced as five bytes. *)
Definition twoChunks (_ : jsstring) : outcome S3.Response :=
  Ok (response (Some (js "5")) (Some (S3.streamOf [chunk1; chunk2])) (Throw (js "SyntaxError"))).

(** An empty body read as a stream. *)
Definition emptyBody (_ : jsstring) : outcome S3.Response :=
  Ok (response (Some (js "0")) (Some S3.Done) (Throw (js "SyntaxError"))).

(** A body of five bytes announced as nine (the size before decoding). *)
Definition encoded (_ : jsstring) : outcome S3.Response :=
  Ok (response (Some (js "9")) (Some (S3.streamOf [chunk1; chunk2])) (Throw (js "SyntaxError"))).

(** A manifest that is an object, not an array. *)
Definition objectManifest (_ : jsstring) : outcome S3.Response :=
  Ok (response None None (Ok (VObject [(js "file", VString (js "demo.zip"))]))).

Definition offline (_ : jsstring) : outcome S3.Response := Throw (js "Failed to fetch").

(** *** The catalog *)
Definition demo : FileItem :=
  {| id := VString (js "demo.zip"); key := VString (js "demo.zip");
     title := VString (js "Demo"); sizeLabel := VString (js "Unknown");
     thumbnailUrl := None; status := remote; downloadProgress := None;
     errorMsg := None; localUrl := None |}.

Definition catalog : App.State :=
  {| App.files := [demo]; App.store := ∅; App.lastUpdate := 0; App.ticks := 0 |}.

Definition config : App.AppConfig := {| App.url := js "https://example.test/lib" |}.

Definition noon (n : nat) : Z := (1000 * Z.of_nat n)%Z.

(** A manifest with a bare element and a complete one, and the items
    listed for it under the base [https://example.test/lib]. *)
Definition manifest : JSValue :=
  VArray [ VObject [(js "file", VString (js "demo.zip"))];
           VObject [(js "id", VString (js "d1")); (js "title", VString (js "Demo"));
                    (js "file", VString (js "windows/demo.zip"));
                    (js "size", VString (js "3 MB"));
                    (js "thumbnail", VString (js "/thumbs/demo.png"))] ].

Definition listed : list FileItem :=
  [ {| id := VString (js "demo.zip"); key := VString (js "demo.zip");
       title := VString (js "demo.zip"); sizeLabel := VString (js "Unknown");
       thumbnailUrl := None; status := remote; downloadProgress := None;
       errorMsg := None; localUrl := None |};
    {| id := VString (js "d1"); key := VString (js "windows/demo.zip");
       title := VString (js "Demo"); sizeLabel := VString (js "3 MB");
       thumbnailUrl := Some (js "https://example.test/lib/thumbs/demo.png");
       status := remote; downloadProgress := None;
       errorMsg := None; localUrl := None |} ].

End Samples.

(** ** The rest of the components *)

Module Text.
Import Str.

(** [s.includes(sub)]: [sub] occurs somewhere in [s]. *)
Fixpoint includes (s sub : jsstring) : bool :=
  startsWith s sub ||
  match s with
  | [] => false
  | _ :: s' => includes s' sub
  end.

(** [s.trim()]: white space and line terminators go from both ends. *)
Definition trimEnd (s : jsstring) : jsstring := rev (S3.trimStart (rev s)).

Definition trim (s : jsstring) : jsstring := trimEnd (S3.trimStart s).

End Text.

(** *** components/SettingsModal.tsx *)
Module SettingsModal.
Import Str.

(** [handleSubmit] (lines 23-32): the configuration handed to [onSave]
    for the text of the input field. *)
Definition handleSubmit (url : jsstring) : App.AppConfig :=
  let finalUrl := Text.trim url in
  let finalUrl :=
    if Zip.truthy finalUrl && negb (startsWith finalUrl (js "http"))
    then js "https://" ++ finalUrl
    else finalUrl in
  {| App.url := finalUrl |}.

End SettingsModal.

(** *** App.tsx: listing, playing and searching *)
Module Library.
Import Str Types.

Record PlayableContent := { content_title : JSValue; content_url : jsstring }.

(** The component state these handlers read and write, with the blob
    URL store of the page, the object store of the database and the
    messages shown by [alert]. *)
Record View := {
  files : list FileItem;
  loading : bool;
  error : option jsstring;
  playingContent : option PlayableContent;
  isProcessing : bool;
  alerts : list jsstring;
  urls : Zip.UrlStore;
  store : gmap jsstring DB.Stored
}.

Definition setFiles (g : list FileItem -> list FileItem) (v : View) : View :=
  {| files := g (files v); loading := loading v; error := error v;
     playingContent := playingContent v; isProcessing := isProcessing v;
     alerts := alerts v; urls := urls v; store := store v |}.

Definition setListing (l : bool) (e : option jsstring) (v : View) : View :=
  {| files := files v; loading := l; error := e;
     playingContent := playingContent v; isProcessing := isProcessing v;
     alerts := alerts v; urls := urls v; store := store v |}.

Definition setPlayingContent (c : option PlayableContent) (v : View) : View :=
  {| files := files v; loading := loading v; error := error v;
     playingContent := c; isProcessing := isProcessing v;
     alerts := alerts v; urls := urls v; store := store v |}.

Definition setIsProcessing (b : bool) (v : View) : View :=
  {| files := files v; loading := loading v; error := error v;
     playingContent := playingContent v; isProcessing := b;
     alerts := alerts v; urls := urls v; store := store v |}.

Definition alert (msg : jsstring) (v : View) : View :=
  {| files := files v; loading := loading v; error := error v;
     playingContent := playingContent v; isProcessing := isProcessing v;
     alerts := alerts v ++ [msg]; urls := urls v; store := store v |}.

Definition setUrls (u : Zip.UrlStore) (v : View) : View :=
  {| files := files v; loading := loading v; error := error v;
     playingContent := playingContent v; isProcessing := isProcessing v;
     alerts := alerts v; urls := u; store := store v |}.

(** [{ ...f, status: st }] *)
Definition withStatus (st : Status) (f : FileItem) : FileItem :=
  {| id := id f; key := key f; title := title f; sizeLabel := sizeLabel f;
     thumbnailUrl := thumbnailUrl f; status := st;
     downloadProgress := downloadProgress f;
     errorMsg := errorMsg f; localUrl := localUrl f |}.

(** [{ ...f, localUrl: url }] *)
Definition withLocalUrl (url : jsstring) (f : FileItem) : FileItem :=
  {| id := id f; key := key f; title := title f; sizeLabel := sizeLabel f;
     thumbnailUrl := thumbnailUrl f; status := status f;
     downloadProgress := downloadProgress f;
     errorMsg := errorMsg f; localUrl := Some url |}.

(** [storedSet.has(v)] for a set of strings. *)
Definition has (storedKeys : list jsstring) (v : JSValue) : bool :=
  match v with
  | VString s => bool_decide (s ∈ storedKeys)
  | _ => false
  end.

Definition listError : jsstring := js "Failed to list files. Check URL and CORS settings.".

Section Handlers.
Variable fetch : jsstring -> outcome S3.Response.
Variable fault : DB.Fault.
(** [zip.loadAsync(zipData)] *)
Variable loadAsync : bytes -> outcome Zip.JSZip.

(** [fetchFiles] (lines 47-84). *)
Definition fetchFiles (currentConfig : App.AppConfig) (v : View) : View :=
  let failed (msg : jsstring) :=
    setListing false (Some (if Zip.truthy msg then msg else listError)) v in
  match DB.getStoredKeys fault (store v) with
  | Throw msg => failed msg
  | Ok storedKeys =>
      match S3.fetchFileList fetch (App.url currentConfig) with
      | Throw msg => failed msg
      | Ok items =>
          setListing false None
            (setFiles (fun _ =>
               map (fun newItem =>
                      withStatus (if has storedKeys (key newItem) then ready else remote)
                        newItem) items) v)
      end
  end.

Definition notInStorage : jsstring :=
  js "File not found in storage. Please download again.".

(** The [catch] block of [handlePlay] (lines 160-168) for a thrown
    message. *)
Definition caught (k msg : jsstring) (v : View) : View :=
  if Text.includes msg (js "not found")
  then alert (js "File data missing. Please download again.")
         (setFiles (App.update k (withStatus remote)) v)
  else alert (js "Failed to load content: " ++ msg) v.

(** Lines 154-159. *)
Definition play (item : FileItem) (contentUrl : jsstring) (v : View) : View :=
  if Zip.truthy contentUrl
  then setPlayingContent
         (Some {| content_title := title item; content_url := contentUrl |}) v
  else v.

(** [handlePlay] (lines 131-172) for an item whose key is a string, as
    its type says; there is no answer for other keys. *)
Definition handlePlay (item : FileItem) (v : View) : option View :=
  match key item with
  | VString k =>
      Some
        (if isProcessing v then v
         else
           match localUrl item with
           | Some (c :: url) => setIsProcessing false (play item (c :: url) v)
           | _ =>
               let v1 := setIsProcessing true v in
               setIsProcessing false
                 match DB.getFileFromDB fault k (store v1) with
                 | Throw msg => caught k msg v1
                 | Ok None => caught k notInStorage v1
                 | Ok (Some zipData) =>
                     match Zip.processZipContent (loadAsync zipData) (urls v1) with
                     | (u, Throw msg) => caught k msg (setUrls u v1)
                     | (u, Ok contentUrl) =>
                         play item contentUrl
                           (setFiles (App.update k (withLocalUrl contentUrl))
                              (setUrls u v1))
                     end
                 end
           end)
  | _ => None
  end.

(** [t.toLowerCase()] for a value [t]: only strings have the method. *)
Definition lowerOf (t : JSValue) : outcome jsstring :=
  match t with
  | VString s => Ok (toLowerCase s)
  | _ => Throw S3.typeError
  end.

(** The predicate of [filteredFiles] (lines 175-178). *)
Definition matches (searchQuery : jsstring) (f : FileItem) : outcome bool :=
  match lowerOf (title f) with
  | Throw msg => Throw msg
  | Ok t =>
      if Text.includes t (toLowerCase searchQuery) then Ok true
      else
        match lowerOf (key f) with
        | Throw msg => Throw msg
        | Ok k => Ok (Text.includes k (toLowerCase searchQuery))
        end
  end.

Fixpoint filteredFiles (searchQuery : jsstring) (l : list FileItem)
  : outcome (list FileItem) :=
  match l with
  | [] => Ok []
  | f :: l' =>
      match matches searchQuery f with
      | Throw msg => Throw msg
      | Ok b =>
          match filteredFiles searchQuery l' with
          | Throw msg => Throw msg
          | Ok r => Ok (if b then f :: r else r)
          end
      end
  end.

End Handlers.

End Library.

(** *** The URLs the store issues *)
Module Handles.

(** The URLs with the serial numbers [n], [n+1], ..., [n+k-1]. *)
Definition issued (n k : nat) : list jsstring := map Zip.blobUrl (seq n k).

End Handles.

(** *** Sample views *)
Module LibrarySamples.
Import Types.

Definition downloaded : FileItem :=
  {| id := VString (js "demo.zip"); key := VString (js "demo.zip");
     title := VString (js "Demo"); sizeLabel := VString (js "Unknown");
     thumbnailUrl := None; status := ready; downloadProgress := None;
     errorMsg := None; localUrl := None |}.

(** A view that lists the item as ready, over a store that holds [data]
    under its key, or nothing. *)
Definition view (data : option DB.Stored) : Library.View :=
  {| Library.files := [downloaded]; Library.loading := false; Library.error := None;
     Library.playingContent := None; Library.isProcessing := false;
     Library.alerts := []; Library.urls := Samples.noUrls;
     Library.store := match data with
                      | Some d => {[ js "demo.zip" := d ]}
                      | None => ∅
                      end |}.

Definition zipBytes : bytes := Samples.chunk1 ++ Samples.chunk2.

(** The view after an attempt to play the item when nothing is stored. *)
Definition afterMissing : Library.View :=
  Library.setIsProcessing false
    (Library.alert (js "File data missing. Please download again.")
       (Library.setFiles (App.update (js "demo.zip") (Library.withStatus remote))
          (view None))).

Definition unzip (z : Zip.JSZip) (_ : bytes) : outcome Zip.JSZip := Ok z.

End LibrarySamples.

(** * Properties *)

Module StrFacts.
Import Str.

Lemma stripPrefix_app p r : stripPrefix p (p ++ r) = Some r.
Proof.
  induction p as [|a p IH]; simpl; [reflexivity|].
  rewrite Ascii.eqb_refl. exact IH.
Qed.

Lemma stripPrefix_Some p s r : stripPrefix p s = Some r <-> s = p ++ r.
Proof.
  split; [|intros ->; apply stripPrefix_app].
  revert s. induction p as [|a p IH]; intros s; simpl.
  - intros [= ->]. reflexivity.
  - destruct s as [|b s]; [discriminate|].
    destruct (Ascii.eqb_spec a b) as [->|]; [|discriminate].
    intros H. apply IH in H. now subst.
Qed.

Lemma stripPrefix_None p s : stripPrefix p s = None <-> forall r, s <> p ++ r.
Proof.
  split.
  - intros H r ->. rewrite stripPrefix_app in H. discriminate.
  - intros H. destruct (stripPrefix p s) as [r|] eqn:E; [|reflexivity].
    apply stripPrefix_Some in E. now apply H in E.
Qed.

Lemma startsWith_spec s p : startsWith s p = true <-> exists r, s = p ++ r.
Proof.
  unfold startsWith. split.
  - destruct (stripPrefix p s) as [r|] eqn:E; [|discriminate].
    intros _. exists r. now apply stripPrefix_Some.
  - intros [r ->]. now rewrite stripPrefix_app.
Qed.

Lemma endsWith_spec s suf : endsWith s suf = true <-> exists p, s = p ++ suf.
Proof.
  unfold endsWith. rewrite andb_true_iff, Nat.leb_le, bool_decide_eq_true. split.
  - intros [_ H]. exists (take (length s - length suf) s).
    transitivity (take (length s - length suf) s ++ drop (length s - length suf) s).
    + symmetry. apply take_drop.
    + f_equal. exact H.
  - intros [p ->]. rewrite length_app. split; [lia|].
    replace (length p + length suf - length suf) with (length p) by lia.
    apply drop_app_length.
Qed.

Lemma endsWith_false s suf : endsWith s suf = false <-> forall p, s <> p ++ suf.
Proof.
  rewrite <- not_true_iff_false, endsWith_spec. split.
  - intros H p E. apply H. now exists p.
  - intros H [p E]. now apply (H p).
Qed.

End StrFacts.

Module ZipFacts.
Import Str StrFacts Zip.

(** The first element a filter keeps, and what comes before it. *)
Lemma filter_first {A} (f : A -> bool) (l : list A) :
  match List.filter f l with
  | [] => Forall (fun x => f x = false) l
  | o :: _ => exists pre post,
      l = pre ++ o :: post /\ f o = true /\ Forall (fun x => f x = false) pre
  end.
Proof.
  induction l as [|x l IH]; simpl; [constructor|].
  destruct (f x) eqn:E.
  - exists [], l. repeat split; [assumption|constructor].
  - destruct (List.filter f l) as [|o l'].
    + constructor; assumption.
    + destruct IH as (pre & post & -> & Ho & Hpre).
      exists (x :: pre), post. repeat split; [assumption|].
      constructor; assumption.
Qed.

Lemma filter_keys (f : jsstring -> bool) (z : JSZip) :
  List.filter f (keys z) = map name (List.filter (fun o => f (name o)) z).
Proof.
  unfold keys. induction z as [|o z IH]; simpl; [reflexivity|].
  destruct (f (name o)); simpl; now rewrite IH.
Qed.

Lemma rootIndex_test o :
  negb (bool_decide (name o = [])) && negb (dir o) && re_index_html (name o) = true
  <-> rootIndex o.
Proof.
  unfold rootIndex, re_index_html.
  rewrite !andb_true_iff, !negb_true_iff, bool_decide_eq_true, bool_decide_eq_false.
  split; [tauto|]. intros [Hd Hn]. repeat split; try assumption.
  intros E. rewrite E in Hn. discriminate.
Qed.

Lemma htmlName_test o : is_html (name o) = true <-> htmlName o.
Proof. unfold is_html, htmlName. apply endsWith_spec. Qed.

Lemma find_first (z : JSZip) pre o post :
  z = pre ++ o :: post ->
  Forall (fun e => name e <> name o) pre ->
  List.find (fun e => bool_decide (name e = name o)) z = Some o.
Proof.
  intros -> H. induction H as [|e pre He _ IH]; simpl.
  - now rewrite bool_decide_eq_true_2.
  - now rewrite bool_decide_eq_false_2.
Qed.

(** C1, as the code has it: the entry point is the first
    non-directory entry whose whole path is index.html up to letter
    case; failing that, the first listed entry whose lowercased path
    ends in .html, provided it is not a directory; in every other case
    the resolution fails with the message that no HTML file was found
    and the URL store is left as it was. *)
Theorem entry_point_selection (z : JSZip) (u : UrlStore) :
  (exists pre o post,
      z = pre ++ o :: post /\ rootIndex o /\ Forall (fun e => ~ rootIndex e) pre /\
      entryFile z = Some o)
  \/ (Forall (fun e => ~ rootIndex e) z /\
      exists pre o post,
        z = pre ++ o :: post /\ htmlName o /\ Forall (fun e => ~ htmlName e) pre /\
        if dir o
        then processZipContent (Ok z) u = (u, Throw noHtmlMessage)
        else entryFile z = Some o)
  \/ (Forall (fun e => ~ rootIndex e) z /\ Forall (fun e => ~ htmlName e) z /\
      processZipContent (Ok z) u = (u, Throw noHtmlMessage)).
Proof.
  assert (Hfail : entryFile z = None ->
                  processZipContent (Ok z) u = (u, Throw noHtmlMessage)).
  { intros E. unfold processZipContent, bind, await, throw. now rewrite E. }
  unfold entryFile in *. unfold file_re in *.
  pose proof (filter_first
    (fun o => negb (bool_decide (name o = [])) && negb (dir o) && re_index_html (name o)) z)
    as H1.
  destruct (List.filter _ z) as [|o l] in H1, Hfail |- *.
  - assert (Hno : Forall (fun e => ~ rootIndex e) z).
    { eapply Forall_impl; [exact H1|]. simpl. intros e He Hr.
      apply rootIndex_test in Hr. congruence. }
    rewrite filter_keys in *.
    pose proof (filter_first (fun o => is_html (name o)) z) as H2.
    destruct (List.filter _ z) as [|o l] in H2, Hfail |- *; simpl in *.
    + right; right. repeat split; [assumption| |auto].
      eapply Forall_impl; [exact H2|]. simpl. intros e He Hr.
      apply htmlName_test in Hr. congruence.
    + right; left. split; [assumption|].
      destruct H2 as (pre & post & Hz & Ho & Hpre).
      exists pre, o, post. repeat split; [assumption|now apply htmlName_test| |].
      * eapply Forall_impl; [exact Hpre|]. simpl. intros e He Hr.
        apply htmlName_test in Hr. congruence.
      * assert (Hfind : List.find (fun e => bool_decide (name e = name o)) z = Some o).
        { apply (find_first z pre o post Hz).
          eapply Forall_impl; [exact Hpre|]. simpl. intros e He Hn.
          rewrite Hn in He. congruence. }
        unfold file in *. rewrite Hfind in *.
        destruct (dir o); auto.
  - left. destruct H1 as (pre & post & Hz & Ho & Hpre).
    exists pre, o, post. repeat split; try assumption; try (apply rootIndex_test in Ho; apply Ho).
    eapply Forall_impl; [exact Hpre|]. simpl. intros e He Hr.
    apply rootIndex_test in Hr. congruence.
Qed.

(** *** Asset classes *)

Lemma endsWith_app p a b :
  endsWith (p ++ a) b = true -> endsWith a b = true \/ endsWith b a = true.
Proof.
  rewrite !endsWith_spec. intros [q E].
  apply app_eq_app in E. destruct E as [l [[_ E]|[_ E]]]; eauto.
Qed.

Lemma mimeOf_table n ext mime :
  In (ext, mime) mimeTable ->
  endsWith (toLowerCase n) ext = true ->
  mimeOf n = mime.
Proof.
  unfold mimeOf. intros Hin H.
  pose proof H as Hp. apply endsWith_spec in Hp. destruct Hp as [p Hp].
  rewrite Hp in *. clear Hp.
  assert (Hx : forall e, endsWith (p ++ ext) e = true ->
                         endsWith ext e = true \/ endsWith e ext = true)
    by (intros e; apply endsWith_app).
  simpl in Hin.
  repeat (destruct Hin as [[= <- <-]|Hin]); try contradiction; rewrite ?H; simpl;
    repeat match goal with
    | |- context [endsWith (p ++ ?a) ?e] =>
        let E := fresh "E" in
        destruct (endsWith (p ++ a) e) eqn:E; simpl;
        [ try reflexivity; try (apply Hx in E; vm_compute in E; destruct E; discriminate)
        | ]
    end; try reflexivity; try congruence.
Qed.

Lemma mimeOf_truthy n :
  truthy (mimeOf n) = true ->
  exists ext, In (ext, mimeOf n) mimeTable /\ endsWith (toLowerCase n) ext = true.
Proof.
  unfold mimeOf.
  destruct (endsWith (toLowerCase n) (js ".png")) eqn:E1;
    [intros _; exists (js ".png"); split; [simpl; tauto|assumption]|].
  destruct (endsWith (toLowerCase n) (js ".jpg")) eqn:E2;
    [intros _; exists (js ".jpg"); split; [simpl; tauto|assumption]|].
  destruct (endsWith (toLowerCase n) (js ".jpeg")) eqn:E3;
    [intros _; exists (js ".jpeg"); split; [simpl; tauto|assumption]|].
  destruct (endsWith (toLowerCase n) (js ".svg")) eqn:E4;
    [intros _; exists (js ".svg"); split; [simpl; tauto|assumption]|].
  destruct (endsWith (toLowerCase n) (js ".css")) eqn:E5;
    [intros _; exists (js ".css"); split; [simpl; tauto|assumption]|].
  destruct (endsWith (toLowerCase n) (js ".js")) eqn:E6;
    [intros _; exists (js ".js"); split; [simpl; tauto|assumption]|].
  simpl. discriminate.
Qed.

Lemma isAsset_spec o :
  isAsset o = true <->
  dir o = false /\
  exists ext mime, In (ext, mime) mimeTable /\ endsWith (toLowerCase (name o)) ext = true.
Proof.
  unfold isAsset. rewrite andb_true_iff, negb_true_iff. split.
  - intros [Hd Hm]. split; [assumption|].
    apply mimeOf_truthy in Hm. destruct Hm as (ext & Hin & He). eauto.
  - intros [Hd (ext & mime & Hin & He)]. split; [assumption|].
    rewrite (mimeOf_table _ _ _ Hin He).
    simpl in Hin. repeat (destruct Hin as [[= <- <-]|Hin]); try contradiction; reflexivity.
Qed.

(** *** The materialization loop *)

Lemma file_in z o :
  NoDup (keys z) -> In o z ->
  file z (name o) = if dir o then None else Some o.
Proof.
  intros Hnd Hin. apply in_split in Hin. destruct Hin as (pre & post & Hz).
  unfold file. rewrite (find_first z pre o post Hz); [reflexivity|].
  subst z. unfold keys in Hnd. rewrite map_app in Hnd. simpl in Hnd.
  apply NoDup_app in Hnd. destruct Hnd as (_ & Hd & _).
  apply List.Forall_forall. intros e He Hn.
  apply (Hd (name e)).
  - apply list_elem_of_In, in_map, He.
  - rewrite Hn. left.
Qed.

Lemma assign_fresh m k v : ~ In k (map fst m) -> assign m k v = m ++ [(k, v)].
Proof.
  induction m as [|[k' v'] m IH]; simpl; [reflexivity|].
  intros H. rewrite bool_decide_eq_false_2 by tauto.
  rewrite IH by tauto. reflexivity.
Qed.

Lemma truthy_blobUrl n : truthy (blobUrl n) = true.
Proof. reflexivity. Qed.

Lemma materialize_cons z n files am :
  materialize z (n :: files) am =
    if truthy (mimeOf n) then
      bind (createBlobUrl z n (mimeOf n))
        (fun url =>
           match url with
           | Some u =>
               if truthy u then materialize z files (assign am n u)
               else materialize z files am
           | None => materialize z files am
           end)
    else materialize z files am.
Proof. reflexivity. Qed.

Lemma filter_cons_if {A} (f : A -> bool) x l :
  List.filter f (x :: l) = if f x then x :: List.filter f l else List.filter f l.
Proof. reflexivity. Qed.

Lemma materialize_spec z :
  NoDup (keys z) ->
  forall l done am u,
    z = done ++ l ->
    map fst am = map name (List.filter isAsset done) ->
    exists u',
      materialize z (map name l) am u =
        (u', match firstFailure (List.filter isAsset l) with
             | Some e => Throw e
             | None =>
                 Ok (am ++ List.combine (map name (List.filter isAsset l))
                             (map fst (handlesFor (next_id u) (List.filter isAsset l))))
             end)
      /\ live u' = live u ++ handlesFor (next_id u) (List.filter isAsset l)
      /\ next_id u' = next_id u + length (handlesFor (next_id u) (List.filter isAsset l)).
Proof.
  intros Hnd. induction l as [|o l IH]; intros done am u Hz Ham.
  - exists u. simpl. rewrite !app_nil_r. repeat split. lia.
  - assert (Hz' : z = (done ++ [o]) ++ l) by (rewrite <- app_assoc; exact Hz).
    assert (Hin : In o z) by (rewrite Hz; apply in_or_app; right; left; reflexivity).
    pose proof (file_in z o Hnd Hin) as Hfile.
    assert (Hskip : isAsset o = false ->
              map fst am = map name (List.filter isAsset (done ++ [o]))).
    { intros Ha. rewrite List.filter_app, filter_cons_if, Ha. simpl.
      now rewrite app_nil_r. }
    rewrite map_cons, materialize_cons, filter_cons_if.
    destruct (truthy (mimeOf (name o))) eqn:Hm.
    2:{ assert (Ha : isAsset o = false) by (unfold isAsset; rewrite Hm; apply andb_false_r).
        rewrite Ha. apply (IH _ am u Hz'). auto. }
    unfold bind, createBlobUrl. rewrite Hfile.
    destruct (dir o) eqn:Hd.
    { assert (Ha : isAsset o = false) by (unfold isAsset; rewrite Hd; reflexivity).
      rewrite Ha. apply (IH _ am u Hz'). auto. }
    assert (Ha : isAsset o = true) by (unfold isAsset; rewrite Hd, Hm; reflexivity).
    rewrite Ha. unfold bind, await. simpl firstFailure. simpl handlesFor.
    destruct (async_blob o) as [b|e] eqn:Hb.
    2:{ exists u. simpl. rewrite app_nil_r. repeat split. lia. }
    unfold createObjectURL. rewrite truthy_blobUrl.
    set (u1 := {| next_id := S (next_id u);
                  live := live u ++ [(blobUrl (next_id u),
                                      {| blob_type := mimeOf (name o); blob_bytes := b |})] |}).
    assert (Hfresh : ~ In (name o) (map fst am)).
    { rewrite Ham. intros Hi. apply in_map_iff in Hi.
      destruct Hi as (e & Hn & He). apply filter_In in He. destruct He as [He _].
      subst z. unfold keys in Hnd. rewrite map_app in Hnd. simpl in Hnd.
      apply NoDup_app in Hnd. destruct Hnd as (_ & Hdis & _).
      apply (Hdis (name e)).
      - apply list_elem_of_In, in_map, He.
      - rewrite Hn. left. }
    rewrite assign_fresh by assumption.
    destruct (IH (done ++ [o]) (am ++ [(name o, blobUrl (next_id u))]) u1 Hz')
      as (u' & Hrun & Hlive & Hnext).
    { rewrite map_app, List.filter_app, filter_cons_if, Ha. simpl.
      now rewrite Ham, map_app. }
    exists u'. rewrite Hrun. simpl in *. repeat split.
    + destruct (firstFailure (List.filter isAsset l)); [reflexivity|].
      now rewrite <- app_assoc.
    + rewrite Hlive. now rewrite <- app_assoc.
    + rewrite Hnext. lia.
Qed.

Lemma firstFailure_app a b :
  firstFailure a = None -> firstFailure (a ++ b) = firstFailure b.
Proof.
  induction a as [|o a IH]; simpl; [reflexivity|].
  destruct (async_blob o); [exact IH|discriminate].
Qed.

Lemma handlesFor_length n l :
  firstFailure l = None -> length (handlesFor n l) = length l.
Proof.
  revert n. induction l as [|o l IH]; intros n; simpl; [reflexivity|].
  destruct (async_blob o); [|discriminate].
  intros H. simpl. now rewrite IH.
Qed.

Lemma handlesFor_stop n a o b msg :
  firstFailure a = None -> async_blob o = Throw msg ->
  handlesFor n (a ++ o :: b) = handlesFor n a.
Proof.
  revert n. induction a as [|x a IH]; intros n; simpl.
  - intros _ ->. reflexivity.
  - destruct (async_blob x); [|discriminate].
    intros H1 H2. now rewrite IH.
Qed.

(** What a run of [processZipContent] on a loaded archive amounts to. *)
Lemma processZipContent_run z u entry html :
  NoDup (keys z) ->
  entryFile z = Some entry -> async_string entry = Ok html ->
  exists u',
    processZipContent (Ok z) u =
      (u', match firstFailure (List.filter isAsset z) with
           | Some e => Throw e
           | None =>
               Ok (fold_left replaceAsset
                     (List.combine (map name (List.filter isAsset z))
                        (map fst (handlesFor (next_id u) (List.filter isAsset z))))
                     html)
           end)
    /\ live u' = live u ++ handlesFor (next_id u) (List.filter isAsset z).
Proof.
  intros Hnd He Hs.
  destruct (materialize_spec z Hnd z [] [] u eq_refl eq_refl) as (u' & Hrun & Hlive & _).
  exists u'. split; [|exact Hlive].
  unfold processZipContent, bind, await, keys. rewrite He, Hs.
  cbv beta iota zeta. rewrite Hrun.
  destruct (firstFailure (List.filter isAsset z)); reflexivity.
Qed.

(** C3, as the code has it: when an asset cannot be read, the
    resolution aborts with that asset's error, and the handles made for
    the assets before it, one per asset, all stay registered: none is
    released. *)
Theorem partial_failure_keeps_handles z u entry html pre o post msg :
  NoDup (keys z) ->
  entryFile z = Some entry -> async_string entry = Ok html ->
  z = pre ++ o :: post ->
  firstFailure (List.filter isAsset pre) = None ->
  isAsset o = true -> async_blob o = Throw msg ->
  exists u',
    processZipContent (Ok z) u = (u', Throw msg)
    /\ live u' = live u ++ handlesFor (next_id u) (List.filter isAsset pre)
    /\ length (handlesFor (next_id u) (List.filter isAsset pre))
       = length (List.filter isAsset pre).
Proof.
  intros Hnd He Hs Hz Hpre Ho Hb.
  destruct (processZipContent_run z u entry html Hnd He Hs) as (u' & Hrun & Hlive).
  assert (Hf : List.filter isAsset z = List.filter isAsset pre ++ o :: List.filter isAsset post).
  { rewrite Hz, List.filter_app, filter_cons_if, Ho. reflexivity. }
  exists u'. rewrite Hrun, Hlive, Hf.
  rewrite (firstFailure_app _ _ Hpre). simpl. rewrite Hb.
  rewrite (handlesFor_stop _ _ _ _ msg Hpre Hb).
  repeat split. now apply handlesFor_length.
Qed.

Lemma map_fst_combine {A B} (l : list A) (k : list B) :
  length l <= length k -> map fst (List.combine l k) = l.
Proof.
  revert k. induction l as [|a l IH]; intros [|b k]; simpl; try reflexivity; try lia.
  intros H. rewrite IH by lia. reflexivity.
Qed.

Lemma name_inj z o o' :
  NoDup (keys z) -> In o z -> In o' z -> name o = name o' -> o = o'.
Proof.
  unfold keys. induction z as [|a z IH]; simpl; [tauto|].
  intros Hnd. apply NoDup_cons in Hnd. destruct Hnd as [Ha Hnd].
  intros [->|Ho] [->|Ho'] Hn; auto.
  - exfalso. apply Ha. rewrite Hn. apply list_elem_of_In, in_map, Ho'.
  - exfalso. apply Ha. rewrite <- Hn. apply list_elem_of_In, in_map, Ho.
Qed.

Lemma handles_table n l :
  firstFailure l = None ->
  Forall (fun o => isAsset o = true) l ->
  Forall2 (fun a h => h.1 = a.2 /\
                      exists ext, In (ext, blob_type h.2) mimeTable /\
                                  endsWith (toLowerCase a.1) ext = true)
    (List.combine (map name l) (map fst (handlesFor n l))) (handlesFor n l).
Proof.
  revert n. induction l as [|o l IH]; intros n; simpl; [constructor|].
  destruct (async_blob o); [|discriminate].
  intros Hf Hall. apply Forall_cons in Hall. destruct Hall as [Ho Hall].
  simpl. constructor; [|now apply IH].
  simpl. split; [reflexivity|].
  unfold isAsset in Ho. apply andb_true_iff in Ho. destruct Ho as [_ Ho].
  now apply mimeOf_truthy.
Qed.

(** C9: in a successful resolution the handles are made exactly for
    the non-directory entries whose lowercased name ends in .png, .jpg,
    .jpeg, .svg, .css or .js, each blob typed by the extension table;
    no other entry gets a handle, and the rewriting passes run for the
    entries of the asset map only. *)
Theorem handles_exactly_for_assets z u u' out :
  NoDup (keys z) ->
  processZipContent (Ok z) u = (u', Ok out) ->
  exists entry html am created,
    entryFile z = Some entry /\ async_string entry = Ok html /\
    out = fold_left replaceAsset am html /\
    live u' = live u ++ created /\
    (forall o, In o z ->
       (In (name o) (map fst am) <->
        dir o = false /\
        exists ext mime, In (ext, mime) mimeTable /\
                         endsWith (toLowerCase (name o)) ext = true)) /\
    (forall nm, In nm (map fst am) -> In nm (keys z)) /\
    Forall2 (fun a h => h.1 = a.2 /\
                        exists ext, In (ext, blob_type h.2) mimeTable /\
                                    endsWith (toLowerCase a.1) ext = true)
      am created.
Proof.
  intros Hnd Hrun.
  destruct (entryFile z) as [entry|] eqn:He.
  2:{ unfold processZipContent, bind, await, throw in Hrun. rewrite He in Hrun.
      discriminate. }
  destruct (async_string entry) as [html|e] eqn:Hs.
  2:{ unfold processZipContent, bind, await, throw in Hrun. rewrite He, Hs in Hrun.
      discriminate. }
  destruct (processZipContent_run z u entry html Hnd He Hs) as (u1 & Hrun1 & Hlive).
  rewrite Hrun in Hrun1.
  destruct (firstFailure (List.filter isAsset z)) eqn:Hf; [discriminate|].
  injection Hrun1 as <- ->.
  set (assets := List.filter isAsset z) in *.
  assert (Hkeys : map fst (List.combine (map name assets)
                             (map fst (handlesFor (next_id u) assets)))
                  = map name assets).
  { apply map_fst_combine. rewrite !length_map, handlesFor_length by assumption. lia. }
  exists entry, html,
    (List.combine (map name assets) (map fst (handlesFor (next_id u) assets))),
    (handlesFor (next_id u) assets).
  rewrite Hkeys.
  split; [first [assumption|reflexivity]|].
  split; [first [assumption|reflexivity]|]. split; [reflexivity|].
  split; [exact Hlive|]. split; [|split].
  - intros o Ho. split.
    + intros Hi. apply in_map_iff in Hi. destruct Hi as (o' & Hn & Ho').
      apply filter_In in Ho'. destruct Ho' as [Hin' Ha].
      rewrite (name_inj z o o' Hnd Ho Hin' (eq_sym Hn)). now apply isAsset_spec in Ha.
    + intros Hx. apply in_map. apply filter_In. split; [assumption|].
      apply isAsset_spec. exact Hx.
  - intros nm Hi. apply in_map_iff in Hi. destruct Hi as (o' & <- & Ho').
    apply filter_In in Ho'. apply in_map, Ho'.
  - apply handles_table; [assumption|].
    apply List.Forall_forall. intros o Ho. apply filter_In in Ho. apply Ho.
Qed.

(** *** The rewriting pass *)

Lemma quote_Some s a r : quote s = Some (a, r) <-> s = a :: r /\ isQuote a = true.
Proof.
  destruct s as [|c s]; simpl.
  - split; [discriminate|]. intros [H _]. discriminate.
  - destruct (isQuote c) eqn:E; split.
    + intros [= <- <-]. auto.
    + intros [[= <- <-] _]. reflexivity.
    + discriminate.
    + intros [[= <- <-] H]. congruence.
Qed.

Lemma nameQuote_Some nm s b r :
  nameQuote nm s = Some (b, r) <-> s = nm ++ b :: r /\ isQuote b = true.
Proof.
  unfold nameQuote. split.
  - destruct (stripPrefix nm s) as [t|] eqn:E; [|discriminate].
    apply stripPrefix_Some in E. intros H. apply quote_Some in H.
    destruct H as [-> H]. auto.
  - intros [-> H]. rewrite stripPrefix_app. now apply quote_Some.
Qed.

Lemma optionalDot_Some nm s g b r :
  optionalDot nm s = Some (g, b, r) ->
  s = default [] g ++ nm ++ b :: r /\ isQuote b = true /\
  (g = None \/ g = Some (js "./")).
Proof.
  unfold optionalDot.
  assert (Hw : match nameQuote nm s with
               | Some (b0, r0) => Some (None, b0, r0)
               | None => None
               end = Some (g, b, r) ->
               s = default [] g ++ nm ++ b :: r /\ isQuote b = true /\
               (g = None \/ g = Some (js "./"))).
  { destruct (nameQuote nm s) as [[b0 r0]|] eqn:E; [|discriminate].
    intros [= <- <- <-]. apply nameQuote_Some in E. destruct E as [-> E]. auto. }
  destruct (stripPrefix (js "./") s) as [s'|] eqn:E1; [|exact Hw].
  destruct (nameQuote nm s') as [[b0 r0]|] eqn:E2; [|exact Hw].
  intros [= <- <- <-]. apply stripPrefix_Some in E1. apply nameQuote_Some in E2.
  destruct E2 as [-> E2]. subst s. auto.
Qed.

Lemma optionalDot_complete nm dot b r :
  isQuote b = true -> dot = [] \/ dot = js "./" ->
  optionalDot nm (dot ++ nm ++ b :: r) <> None.
Proof.
  intros Hb Hdot. unfold optionalDot.
  assert (Hnq : forall t, nameQuote nm (nm ++ b :: t) = Some (b, t))
    by (intros t; now apply nameQuote_Some).
  destruct Hdot as [->| ->].
  - rewrite app_nil_l, Hnq.
    destruct (stripPrefix (js "./") (nm ++ b :: r)) as [s'|]; [|discriminate].
    destruct (nameQuote nm s') as [[b0 r0]|]; discriminate.
  - rewrite stripPrefix_app, Hnq. discriminate.
Qed.

Lemma afterAttr_Some nm attr s m :
  afterAttr nm attr s = Some m ->
  s = matched nm m ++ rest m /\ g1 m = attr /\
  isQuote (q1 m) = true /\ isQuote (q2 m) = true /\
  (g2 m = None \/ g2 m = Some (js "./")).
Proof.
  unfold afterAttr, matched.
  destruct (stripPrefix attr s) as [s0|] eqn:E0; [|discriminate].
  destruct (stripPrefix (js "=") s0) as [s1|] eqn:E1; [|discriminate].
  destruct (quote s1) as [[a s2]|] eqn:E2; [|discriminate].
  destruct (optionalDot nm s2) as [[[g b] r]|] eqn:E3; [|discriminate].
  intros [= <-]. cbn [g1 q1 g2 q2 rest].
  apply stripPrefix_Some in E0, E1. apply quote_Some in E2.
  apply optionalDot_Some in E3.
  destruct E2 as [-> Ha]. destruct E3 as (-> & Hb & Hg). subst s0 s.
  repeat split; try assumption.
  rewrite <- !app_assoc. reflexivity.
Qed.

Lemma afterAttr_complete nm attr a b dot r :
  isQuote a = true -> isQuote b = true -> dot = [] \/ dot = js "./" ->
  afterAttr nm attr ((attr ++ js "=" ++ [a] ++ dot ++ nm ++ [b]) ++ r) <> None.
Proof.
  intros Ha Hb Hdot. unfold afterAttr.
  rewrite <- !app_assoc. rewrite !stripPrefix_app.
  change ([a] ++ dot ++ nm ++ [b] ++ r) with (a :: dot ++ nm ++ b :: r).
  simpl quote. rewrite Ha.
  pose proof (optionalDot_complete nm dot b r Hb Hdot) as H.
  destruct (optionalDot nm (dot ++ nm ++ b :: r)) as [[[g b0] r0]|]; [discriminate|].
  congruence.
Qed.

Lemma exec_Some nm s m :
  exec nm s = Some m ->
  Occurrence nm (g1 m) (matched nm m) /\ s = matched nm m ++ rest m.
Proof.
  unfold exec. intros H.
  assert (Hm : exists attr, (attr = js "src" \/ attr = js "href") /\
                            afterAttr nm attr s = Some m).
  { destruct (afterAttr nm (js "src") s) as [m'|] eqn:E.
    - injection H as ->. eauto.
    - eauto. }
  destruct Hm as (attr & Hattr & Hm).
  apply afterAttr_Some in Hm. destruct Hm as (Hs & Hg & Ha & Hb & Hdot).
  split; [|exact Hs]. unfold matched. rewrite Hg.
  constructor; try assumption.
  destruct Hdot as [-> | ->]; simpl; auto.
Qed.

Lemma exec_None nm s : exec nm s = None -> ~ occursAtHead nm s.
Proof.
  unfold exec. intros H (attr & t & r & Hocc & ->).
  destruct Hocc as [attr a b dot Hattr Ha Hb Hdot].
  pose proof (afterAttr_complete nm attr a b dot r Ha Hb Hdot) as Hc.
  destruct Hattr as [-> | ->].
  - destruct (afterAttr nm (js "src") _); [discriminate|congruence].
  - destruct (afterAttr nm (js "src") _); [discriminate|congruence].
Qed.

Lemma getSubstitution_literal mt pre post caps t :
  ~ In dollar t -> getSubstitution mt pre post caps t = t.
Proof.
  induction t as [|c t IH]; simpl; [reflexivity|].
  intros H. destruct (Ascii.eqb_spec c dollar) as [->|Hc]; [tauto|].
  simpl. rewrite IH by tauto. reflexivity.
Qed.

Lemma getSubstitution_template mt pre post a g url :
  ~ In dollar url ->
  getSubstitution mt pre post [Some a; g] (template url)
  = a ++ js "=" ++ [dquote] ++ url ++ [dquote].
Proof.
  intros H.
  assert (Hlit : getSubstitution mt pre post [Some a; g] (url ++ [dquote])
                 = url ++ [dquote]).
  { apply getSubstitution_literal. intros Hd.
    apply in_app_or in Hd. destruct Hd as [Hd|[Hd|[]]]; [tauto|discriminate]. }
  unfold template, dollar, dquote in *. simpl. rewrite Hlit. reflexivity.
Qed.

Lemma replaceFrom_cons nm tpl pre c s :
  replaceFrom nm tpl pre (c :: s) =
    match exec nm (c :: s) with
    | Some m =>
        getSubstitution (matched nm m) pre (rest m) [Some (g1 m); g2 m] tpl
          ++ replaceFrom nm tpl (pre ++ matched nm m) (rest m)
    | None => c :: replaceFrom nm tpl (pre ++ [c]) s
    end.
Proof.
  rewrite replaceFrom_equation_2.
  assert (H : forall o (E : exec nm (c :: s) = o),
             replaceFrom_unfold_clause_2 nm tpl pre c s (exist _ o E) =
             match o with
             | Some m =>
                 getSubstitution (matched nm m) pre (rest m) [Some (g1 m); g2 m] tpl
                   ++ replaceFrom nm tpl (pre ++ matched nm m) (rest m)
             | None => c :: replaceFrom nm tpl (pre ++ [c]) s
             end)
    by (intros [m|] E; reflexivity).
  apply H.
Qed.

Lemma replaceFrom_Rewritten nm url :
  ~ In dollar url ->
  forall s pre, Rewritten nm url s (replaceFrom nm (template url) pre s).
Proof.
  intros Hurl s. remember (length s) as n eqn:Hn. revert s Hn.
  induction n as [n IH] using lt_wf_ind. intros s Hn pre.
  destruct s as [|c s].
  - simp replaceFrom. constructor.
  - rewrite replaceFrom_cons.
    destruct (exec nm (c :: s)) as [m|] eqn:E.
    + pose proof (exec_Some _ _ _ E) as [Hocc Hs].
      rewrite getSubstitution_template by assumption.
      rewrite Hs at 1. rewrite <- !app_assoc.
      apply (rw_hit nm url (g1 m) (matched nm m) (rest m) _ Hocc).
      apply (IH (length (rest m))); [|reflexivity].
      subst n. rewrite Hs. rewrite length_app.
      destruct Hocc as [attr a b dot [-> | ->] _ _ _]; simpl; lia.
    + apply rw_copy; [now apply exec_None|].
      apply (IH (length s)); [|reflexivity]. subst n. simpl. lia.
Qed.

Lemma replaceAsset_Passes am :
  Forall (fun a => ~ In dollar a.2) am ->
  forall h, Passes am h (fold_left replaceAsset am h).
Proof.
  induction 1 as [|[nm url] am Hurl _ IH]; intros h; simpl.
  - constructor.
  - econstructor; [|apply IH].
    unfold replaceAsset. simpl. now apply replaceFrom_Rewritten.
Qed.

Lemma blobUrl_no_dollar n : ~ In dollar (blobUrl n).
Proof.
  unfold blobUrl. intros H. apply in_app_or in H. destruct H as [H|H].
  - simpl in H. repeat (destruct H as [H|H]; [discriminate|]). exact H.
  - induction (Nat.to_uint n) as [|u IH|u IH|u IH|u IH|u IH|u IH|u IH|u IH|u IH|u IH];
      simpl in H; try (destruct H as [H|H]; [discriminate|]); auto.
Qed.

(** The relation [Rewritten] has one outcome per text. *)
Lemma dot_conflict b r1 x :
  isQuote b = true ->
  forall nm, nm ++ b :: r1 <> js "./" ++ nm ++ x.
Proof.
  intros Hb nm. remember (length nm) as n eqn:Hn. revert nm Hn.
  induction n as [n IH] using lt_wf_ind. intros nm Hn H.
  destruct nm as [|c [|d nm]]; simpl in H.
  - injection H as -> _. discriminate.
  - injection H as -> -> _. discriminate.
  - injection H as -> -> H. apply (IH (length nm)) in H; [assumption| |reflexivity].
    subst n. simpl. lia.
Qed.

Lemma occurrence_unique nm attr1 t1 r1 attr2 t2 r2 :
  Occurrence nm attr1 t1 -> Occurrence nm attr2 t2 ->
  t1 ++ r1 = t2 ++ r2 ->
  attr1 = attr2 /\ r1 = r2.
Proof.
  intros [attr a b dot Hattr Ha Hb Hdot] [attr' a' b' dot' Hattr' Ha' Hb' Hdot'] H.
  assert (attr = attr') as <-.
  { destruct Hattr as [-> | ->], Hattr' as [-> | ->]; try reflexivity;
      simpl in H; discriminate. }
  split; [reflexivity|].
  rewrite <- !app_assoc in H. apply app_inv_head in H.
  simpl in H. injection H as <- H.
  destruct Hdot as [-> | ->], Hdot' as [-> | ->].
  - simpl in H. apply app_inv_head in H. now injection H.
  - exfalso. rewrite !app_nil_l in H. now apply dot_conflict in H.
  - exfalso. rewrite !app_nil_l in H. symmetry in H. now apply dot_conflict in H.
  - apply app_inv_head in H. apply app_inv_head in H. now injection H.
Qed.

Lemma occurrence_cons nm attr t : Occurrence nm attr t -> exists c t', t = c :: t'.
Proof. intros [a q1 q2 dot [-> | ->] _ _ _]; simpl; eauto. Qed.

Lemma Rewritten_unique nm url s a :
  Rewritten nm url s a -> forall b, Rewritten nm url s b -> a = b.
Proof.
  induction 1 as [|c s s' Hno _ IH|attr t r r' Hocc _ IH]; intros b Hb.
  - remember [] as e eqn:He. destruct Hb as [| |attr t r r' Hocc _]; try discriminate.
    + reflexivity.
    + apply occurrence_cons in Hocc. destruct Hocc as (c & t' & ->). discriminate.
  - remember (c :: s) as e eqn:He.
    destruct Hb as [|c0 s0 s0' _ Hb|attr t r r' Hocc _].
    + discriminate.
    + injection He as -> ->. f_equal. now apply IH.
    + exfalso. apply Hno. exists attr, t, r. split; [assumption|congruence].
  - remember (t ++ r) as e eqn:He.
    destruct Hb as [|c0 s0 s0' Hno _|attr0 t0 r0 r0' Hocc0 Hb].
    + apply occurrence_cons in Hocc. destruct Hocc as (c & t' & ->). discriminate.
    + exfalso. apply Hno. exists attr, t, r. split; [assumption|congruence].
    + destruct (occurrence_unique _ _ _ _ _ _ _ Hocc0 Hocc He) as [-> ->].
      rewrite (IH _ Hb). reflexivity.
Qed.

Lemma Passes_unique am h a :
  Passes am h a -> forall b, Passes am h b -> a = b.
Proof.
  induction 1 as [h|nm url am h h1 h2 Hr _ IH]; intros b Hb.
  - now inversion Hb.
  - inversion Hb as [|? ? ? ? h1' ? Hr' Hp']; subst.
    rewrite <- (Rewritten_unique _ _ _ _ Hr _ Hr') in Hp'. now apply IH.
Qed.

Lemma map_snd_combine {A B} (l : list A) (k : list B) :
  length k <= length l -> map snd (List.combine l k) = k.
Proof.
  revert k. induction l as [|a l IH]; intros [|b k]; simpl; try reflexivity; try lia.
  intros H. rewrite IH by lia. reflexivity.
Qed.

Lemma handlesFor_holds n l :
  firstFailure l = None ->
  Forall2 (fun o h => async_blob o = Ok (blob_bytes h.2) /\ blob_type h.2 = mimeOf (name o))
    l (handlesFor n l).
Proof.
  revert n. induction l as [|o l IH]; intros n; simpl; [constructor|].
  destruct (async_blob o) as [b|e] eqn:Hb; [|discriminate].
  intros Hf. constructor; [|now apply IH].
  simpl. split; [assumption|reflexivity].
Qed.

Lemma handlesFor_no_dollar n l :
  Forall (fun h => ~ In dollar h.1) (handlesFor n l).
Proof.
  revert n. induction l as [|o l IH]; intros n; simpl; [constructor|].
  destruct (async_blob o); constructor; [apply blobUrl_no_dollar|apply IH].
Qed.

(** C2, as the code has it: the resolved text is the entry point's
    text after one pass per materialized asset, in the order of the
    asset map.  The asset map pairs each asset, in archive order, with
    its locator: the URL under which the handle made for that asset in
    this resolution, holding the asset's bytes, is registered.  A pass
    reads the text from the left and replaces every occurrence of src or
    href, an equals sign, a quote, the asset's path or ./ and the path,
    and a quote, by the attribute with the locator between double
    quotes; the two quotes are each a double or a single quote and need
    not be the same.  Every other character is copied unchanged. *)
Theorem rewriting_passes z u u' out :
  NoDup (keys z) ->
  processZipContent (Ok z) u = (u', Ok out) ->
  exists entry html am created,
    entryFile z = Some entry /\ async_string entry = Ok html /\
    map fst am = map name (List.filter isAsset z) /\
    live u' = live u ++ created /\
    map snd am = map fst created /\
    Forall2 (fun o h => async_blob o = Ok (blob_bytes h.2) /\
                        blob_type h.2 = mimeOf (name o))
      (List.filter isAsset z) created /\
    forall out', Passes am html out' <-> out' = out.
Proof.
  intros Hnd Hrun.
  destruct (entryFile z) as [entry|] eqn:He.
  2:{ unfold processZipContent, bind, await, throw in Hrun. rewrite He in Hrun.
      discriminate. }
  destruct (async_string entry) as [html|e] eqn:Hs.
  2:{ unfold processZipContent, bind, await, throw in Hrun. rewrite He, Hs in Hrun.
      discriminate. }
  destruct (processZipContent_run z u entry html Hnd He Hs) as (u1 & Hrun1 & Hlive).
  rewrite Hrun in Hrun1.
  destruct (firstFailure (List.filter isAsset z)) eqn:Hf; [discriminate|].
  injection Hrun1 as <- ->.
  set (assets := List.filter isAsset z) in *.
  set (created := handlesFor (next_id u) assets) in *.
  set (am := List.combine (map name assets) (map fst created)).
  assert (Hlen : length created = length assets) by now apply handlesFor_length.
  assert (Hsnd : map snd am = map fst created).
  { apply map_snd_combine. rewrite !length_map. lia. }
  assert (Hp : Passes am html (fold_left replaceAsset am html)).
  { apply replaceAsset_Passes. apply List.Forall_forall. intros [nm url] Hin.
    apply in_combine_r in Hin. apply in_map_iff in Hin.
    destruct Hin as (h & <- & Hin). simpl.
    pose proof (handlesFor_no_dollar (next_id u) assets) as Hall.
    rewrite List.Forall_forall in Hall. now apply Hall. }
  exists entry, html, am, created.
  split; [first [assumption|reflexivity]|]. split; [first [assumption|reflexivity]|].
  split; [apply map_fst_combine; rewrite !length_map; lia|].
  split; [exact Hlive|]. split; [exact Hsnd|].
  split; [now apply handlesFor_holds|].
  intros out'. split.
  - intros Hp'. apply (Passes_unique _ _ _ Hp' _ Hp).
  - intros ->. exact Hp.
Qed.

(** *** The rules at the sample inputs *)

Lemma NoDup_archive : NoDup (keys Samples.archive).
Proof. apply (bool_decide_unpack _). vm_compute. exact I. Defined.

Lemma NoDup_halfRead : NoDup (keys Samples.halfRead).
Proof. apply (bool_decide_unpack _). vm_compute. exact I. Defined.

(** With [Index.HTML] in a folder and [other.htm] beside it, the code
    does select the former, by its fallback rule. *)
Example selects_nested_index_by_fallback :
  entryFile [Samples.entry "foo/Index.HTML" []; Samples.entry "other.htm" []]
  = Some (Samples.entry "foo/Index.HTML" []).
Proof. reflexivity. Qed.

Example first_page_wins_over_nested_index :
  entryFile Samples.nested = Some (Samples.entry "a.html" []) /\
  Spec.entryFile Samples.nested = Some (Samples.entry "docs/index.html" []).
Proof. split; reflexivity. Qed.

Example htm_is_not_an_entry_point :
  entryFile Samples.onlyHtm = None /\
  Spec.entryFile Samples.onlyHtm = Some (Samples.entry "other.htm" []).
Proof. split; reflexivity. Qed.

(** C1 as worded fails: an index.html below the root does not take
    priority over a page listed before it. *)
Lemma entry_point_not_at_any_depth :
  ~ (forall z, entryFile z = Spec.entryFile z).
Proof.
  intros H. specialize (H Samples.nested). vm_compute in H. discriminate.
Qed.

Example resolves_sample_page :
  processZipContent (Ok Samples.archive) Samples.noUrls
  = (Samples.oneUrl, Ok Samples.resolvedPage).
Proof. reflexivity. Qed.

Lemma rewriting_passes_witness :
  exists entry html am created,
    entryFile Samples.archive = Some entry /\ async_string entry = Ok html /\
    map fst am = map name (List.filter isAsset Samples.archive) /\
    live Samples.oneUrl = live Samples.noUrls ++ created /\
    map snd am = map fst created /\
    Forall2 (fun o h => async_blob o = Ok (blob_bytes h.2) /\
                        blob_type h.2 = mimeOf (name o))
      (List.filter isAsset Samples.archive) created /\
    forall out', Passes am html out' <-> out' = Samples.resolvedPage.
Proof.
  apply (rewriting_passes Samples.archive Samples.noUrls Samples.oneUrl
           Samples.resolvedPage NoDup_archive).
  reflexivity.
Defined.

(** C2 as worded fails: an attribute value between a double and a
    single quote is none of the four forms, and is rewritten all the
    same. *)
Lemma rewrites_mixed_quotes :
  ~ (forall html asset,
        (forall f, In f (Spec.forms asset.1) -> Spec.occurs f html = false) ->
        replaceAsset html asset = html).
Proof.
  intros H.
  specialize (H Samples.mixedQuotes (js "logo.png", js "blob:0")).
  assert (Hnone : forall f, In f (Spec.forms (js "logo.png")) ->
                            Spec.occurs f Samples.mixedQuotes = false).
  { intros f Hf. vm_compute in Hf.
    repeat (destruct Hf as [<-|Hf]; [vm_compute; reflexivity|]). contradiction. }
  apply H in Hnone. vm_compute in Hnone. discriminate.
Qed.

Example mixed_quotes_rewritten :
  replaceAsset Samples.mixedQuotes (js "logo.png", js "blob:0")
  = Samples.img (js "blob:0").
Proof. reflexivity. Qed.

Lemma partial_failure_keeps_handles_witness :
  exists u',
    processZipContent (Ok Samples.halfRead) Samples.noUrls
      = (u', Throw (js "Corrupted zip"))
    /\ live u' = live Samples.noUrls
                   ++ handlesFor 0 (List.filter isAsset [Samples.entry "index.html" Samples.page;
                                                          Samples.entry "logo.png" []])
    /\ length (handlesFor 0 (List.filter isAsset [Samples.entry "index.html" Samples.page;
                                                   Samples.entry "logo.png" []]))
       = length (List.filter isAsset [Samples.entry "index.html" Samples.page;
                                       Samples.entry "logo.png" []]).
Proof.
  apply (partial_failure_keeps_handles Samples.halfRead Samples.noUrls
           (Samples.entry "index.html" Samples.page) Samples.page
           [Samples.entry "index.html" Samples.page; Samples.entry "logo.png" []]
           (Samples.corrupt "style.css") [] (js "Corrupted zip") NoDup_halfRead);
    reflexivity.
Defined.

(** C3 as worded fails: the handle made before the unreadable asset
    is still registered after the failure. *)
Lemma failed_resolution_leaves_handles :
  ~ (forall loaded u u' msg,
        processZipContent loaded u = (u', Throw msg) -> live u' = live u).
Proof.
  intros H.
  specialize (H (Ok Samples.halfRead) Samples.noUrls Samples.oneUrl (js "Corrupted zip")).
  assert (Hrun : processZipContent (Ok Samples.halfRead) Samples.noUrls
                 = (Samples.oneUrl, Throw (js "Corrupted zip"))) by reflexivity.
  apply H in Hrun. vm_compute in Hrun. discriminate.
Qed.

Lemma handles_exactly_for_assets_witness :
  exists entry html am created,
    entryFile Samples.archive = Some entry /\ async_string entry = Ok html /\
    Samples.resolvedPage = fold_left replaceAsset am html /\
    live Samples.oneUrl = live Samples.noUrls ++ created /\
    (forall o, In o Samples.archive ->
       (In (name o) (map fst am) <->
        dir o = false /\
        exists ext mime, In (ext, mime) mimeTable /\
                         endsWith (toLowerCase (name o)) ext = true)) /\
    (forall nm, In nm (map fst am) -> In nm (keys Samples.archive)) /\
    Forall2 (fun a h => h.1 = a.2 /\
                        exists ext, In (ext, blob_type h.2) mimeTable /\
                                    endsWith (toLowerCase a.1) ext = true)
      am created.
Proof.
  apply (handles_exactly_for_assets Samples.archive Samples.noUrls Samples.oneUrl
           Samples.resolvedPage NoDup_archive).
  reflexivity.
Defined.

End ZipFacts.

Module S3Facts.
Import Str StrFacts Types S3.

(** *** The read loop *)

Lemma readLoop_spec {S} (cb : option (Z -> number -> S -> S)) total reader :
  forall chunks received s,
    readLoop cb total reader chunks received s =
      (fold_left (fun s r => call cb r total s) (runningSums received (delivered reader)) s,
       match failure reader with
       | Some msg => Throw msg
       | None => Ok (chunks ++ delivered reader,
                     (received + Z.of_nat (length (concat (delivered reader))))%Z)
       end).
Proof.
  induction reader as [|value next IH|msg]; intros chunks received s; simpl.
  - now rewrite app_nil_r, Z.add_0_r.
  - rewrite IH. f_equal.
    destruct (failure next); [reflexivity|].
    rewrite <- app_assoc, length_app, Nat2Z.inj_add, Z.add_assoc. reflexivity.
  - reflexivity.
Qed.

Lemma delivered_streamOf chunks : delivered (streamOf chunks) = chunks.
Proof. induction chunks as [|c l IH]; simpl; [reflexivity|now rewrite IH]. Qed.

Lemma failure_streamOf chunks : failure (streamOf chunks) = None.
Proof. induction chunks as [|c l IH]; simpl; [reflexivity|exact IH]. Qed.

Lemma streamOf_delivered reader :
  failure reader = None -> reader = streamOf (delivered reader).
Proof.
  induction reader as [|value next IH|msg]; simpl; intros H.
  - reflexivity.
  - now rewrite <- IH.
  - discriminate.
Qed.

(** *** Assembling the chunks *)

Lemma set_at_end (done chunk : bytes) (n : nat) :
  set (done ++ replicate (length chunk + n) Byte.x00) chunk (length done)
  = Ok ((done ++ chunk) ++ replicate n Byte.x00).
Proof.
  unfold set. rewrite length_app, length_replicate.
  destruct (Nat.leb_spec (length done + length chunk) (length done + (length chunk + n)));
    [|lia].
  f_equal. rewrite <- (Nat.add_0_r (length done)).
  rewrite list_inserts_app_r, replicate_add.
  rewrite list_inserts_0_r by (now rewrite length_replicate).
  now rewrite <- app_assoc.
Qed.

Lemma combine_spec chunks :
  forall done : bytes,
    combine chunks (done ++ replicate (length (concat chunks)) Byte.x00) (length done)
    = Ok (done ++ concat chunks).
Proof.
  induction chunks as [|c l IH]; intros done; simpl.
  - now rewrite app_nil_r.
  - rewrite length_app, set_at_end. simpl.
    rewrite <- length_app, IH. now rewrite <- app_assoc.
Qed.

Lemma downloadFile_streamed {S} fetch (cb : Z -> number -> S -> S) base nm s resp reader :
  fetch (joinUrl base nm) = Ok resp -> ok resp = true ->
  body resp = Some reader ->
  downloadFile fetch (Some cb) base nm s =
    (fold_left (fun s r => cb r (totalOf resp) s) (runningSums 0 (delivered reader)) s,
     match failure reader with
     | Some msg => Throw msg
     | None => Ok (concat (delivered reader))
     end).
Proof.
  intros Hf Hok Hb. unfold downloadFile. rewrite Hf, Hok, Hb. simpl negb. cbv iota.
  rewrite readLoop_spec. simpl call.
  destruct (failure reader); [reflexivity|].
  rewrite Z.add_0_l, Nat2Z.id, app_nil_l.
  f_equal. apply (combine_spec (delivered reader) []).
Qed.

(** C5: a successful streamed fetch returns the chunks the stream
    delivered, appended in the order of receipt, whatever their sizes;
    its length is the sum of their lengths. *)
Theorem streamed_bytes_are_the_chunks {S} fetch (cb : Z -> number -> S -> S)
    base nm s s' resp reader data :
  fetch (joinUrl base nm) = Ok resp ->
  body resp = Some reader ->
  downloadFile fetch (Some cb) base nm s = (s', Ok data) ->
  reader = streamOf (delivered reader) /\
  data = concat (delivered reader) /\
  length data = sum_list (map length (delivered reader)).
Proof.
  intros Hf Hb Hrun.
  assert (Hok : ok resp = true).
  { unfold downloadFile in Hrun. rewrite Hf in Hrun.
    destruct (ok resp); [reflexivity|discriminate]. }
  rewrite (downloadFile_streamed _ _ _ _ _ _ _ Hf Hok Hb) in Hrun.
  destruct (failure reader) eqn:Hfail; [discriminate|].
  injection Hrun as _ <-.
  split; [now apply streamOf_delivered|]. split; [reflexivity|].
  induction (delivered reader) as [|c l IH]; simpl; [reflexivity|].
  now rewrite length_app, IH.
Qed.

(** *** The progress calls *)

Lemma fold_record total l calls :
  fold_left (fun s r => record r total s) l calls
  = calls ++ map (fun r => (r, total)) l.
Proof.
  revert calls. induction l as [|r l IH]; intros calls; simpl.
  - now rewrite app_nil_r.
  - rewrite IH. unfold record. now rewrite <- app_assoc.
Qed.

Lemma runningSums_sorted received chunks :
  StronglySorted Z.le (runningSums received chunks) /\
  List.Forall (Z.le received) (runningSums received chunks).
Proof.
  revert received. induction chunks as [|c l IH]; intros received; simpl.
  - split; constructor.
  - destruct (IH (received + Z.of_nat (length c))%Z) as [Hs Hf].
    split.
    + constructor; assumption.
    + constructor; [lia|].
      eapply List.Forall_impl; [|exact Hf]. simpl. intros; lia.
Qed.

Lemma runningSums_length received chunks :
  length (runningSums received chunks) = length chunks.
Proof.
  revert received. induction chunks as [|c l IH]; intros received; simpl;
    [reflexivity|now rewrite IH].
Qed.

Lemma runningSums_last received chunks r :
  last (runningSums received chunks) = Some r ->
  r = (received + Z.of_nat (length (concat chunks)))%Z.
Proof.
  revert received. induction chunks as [|c l IH]; intros received; simpl; [discriminate|].
  destruct l as [|c' l].
  - simpl. intros [= <-]. rewrite app_nil_r. reflexivity.
  - intros H. apply IH in H. rewrite H, length_app. lia.
Qed.

Lemma last_tagged (total : number) (l : list Z) r t :
  last (map (fun r => (r, total)) l) = Some (r, t) -> last l = Some r.
Proof.
  induction l as [|x [|y l] IH]; simpl; try discriminate.
  - now intros [= -> _].
  - exact IH.
Qed.

(** C4, as the code has it: the values of received never decrease
    and every call carries the announced total.  On the streamed path
    there is one call per chunk delivered, none when the body is
    empty, and the last call reports the number of bytes returned.
    Without a body stream there is one call, with both arguments equal
    to the announced total, when that total is positive, and none
    otherwise. *)
Theorem progress_calls fetch base nm calls data :
  downloadFile fetch (Some record) base nm [] = (calls, Ok data) ->
  exists resp,
    fetch (joinUrl base nm) = Ok resp /\
    StronglySorted Z.le (map fst calls) /\
    List.Forall (fun c => c.2 = totalOf resp) calls /\
    match body resp with
    | Some reader =>
        map fst calls = runningSums 0 (delivered reader) /\
        length calls = length (delivered reader) /\
        (forall c, last calls = Some c -> c.1 = Z.of_nat (length data))
    | None =>
        calls = match totalOf resp with
                | Num t => if (0 <? t)%Z then [(t, Num t)] else []
                | NaN => []
                end
    end.
Proof.
  intros Hrun.
  destruct (fetch (joinUrl base nm)) as [resp|e] eqn:Hf.
  2:{ unfold downloadFile in Hrun. rewrite Hf in Hrun. discriminate. }
  exists resp. split; [reflexivity|].
  assert (Hok : ok resp = true).
  { unfold downloadFile in Hrun. rewrite Hf in Hrun.
    destruct (ok resp); [reflexivity|discriminate]. }
  destruct (body resp) as [reader|] eqn:Hb.
  - rewrite (downloadFile_streamed _ _ _ _ _ _ _ Hf Hok Hb) in Hrun.
    destruct (failure reader); [discriminate|].
    injection Hrun as <- <-.
    rewrite fold_record, app_nil_l.
    assert (Hfst : map fst (map (fun r => (r, totalOf resp)) (runningSums 0 (delivered reader)))
                   = runningSums 0 (delivered reader)).
    { rewrite List.map_map. simpl. apply List.map_id. }
    rewrite Hfst. split; [apply runningSums_sorted|]. split; [|split; [|split]].
    + apply List.Forall_forall. intros c Hc. apply in_map_iff in Hc.
      destruct Hc as (r & <- & _). reflexivity.
    + reflexivity.
    + now rewrite length_map, runningSums_length.
    + intros [r t] Hl. simpl.
      apply last_tagged, runningSums_last in Hl. lia.
  - unfold downloadFile in Hrun. rewrite Hf, Hok, Hb in Hrun. simpl in Hrun.
    destruct (arrayBuffer resp); [|discriminate].
    destruct (totalOf resp) as [|t]; simpl in Hrun.
    + injection Hrun as <- _. repeat split; constructor.
    + destruct (0 <? t)%Z; injection Hrun as <- _; simpl; repeat split;
        repeat constructor.
Qed.

(** C10: a manifest that is fetched and parsed but is not an array
    makes [fetchFileList] fail with the invalid-format error; no item
    is returned. *)
Theorem non_array_manifest_rejected fetch base resp data :
  fetch (joinUrl base (js "library.json")) = Ok resp ->
  ok resp = true ->
  json resp = Ok data ->
  (forall items, data <> VArray items) ->
  fetchFileList fetch base = Throw (js "Invalid library format. Expected a JSON array.").
Proof.
  intros Hf Hok Hj Hd. unfold fetchFileList, bindO. rewrite Hf, Hok, Hj. simpl.
  destruct data; try reflexivity. now destruct (Hd items).
Qed.

(** *** The rules at the sample inputs *)

Example joins_base_and_file :
  joinUrl (js "https://example.test/lib/") (js "./demo.zip")
  = js "https://example.test/lib/demo.zip".
Proof. reflexivity. Qed.

Example two_chunks_download :
  downloadFile Samples.twoChunks (Some record) (js "https://example.test/lib")
    (js "demo.zip") []
  = ([(2%Z, Num 5); (5%Z, Num 5)], Ok (Samples.chunk1 ++ Samples.chunk2)).
Proof. reflexivity. Qed.

Lemma progress_calls_witness :
  exists resp,
    Samples.twoChunks (joinUrl (js "https://example.test/lib") (js "demo.zip")) = Ok resp /\
    StronglySorted Z.le (map fst [(2%Z, Num 5); (5%Z, Num 5)]) /\
    List.Forall (fun c => c.2 = totalOf resp) [(2%Z, Num 5); (5%Z, Num 5)] /\
    match body resp with
    | Some reader =>
        map fst [(2%Z, Num 5); (5%Z, Num 5)] = runningSums 0 (delivered reader) /\
        length [(2%Z, Num 5); (5%Z, Num 5)] = length (delivered reader) /\
        (forall c, last [(2%Z, Num 5); (5%Z, Num 5)] = Some c ->
                   c.1 = Z.of_nat (length (Samples.chunk1 ++ Samples.chunk2)))
    | None =>
        [(2%Z, Num 5); (5%Z, Num 5)]
        = match totalOf resp with
          | Num t => if (0 <? t)%Z then [(t, Num t)] else []
          | NaN => []
          end
    end.
Proof.
  apply (progress_calls Samples.twoChunks (js "https://example.test/lib") (js "demo.zip")
           [(2%Z, Num 5); (5%Z, Num 5)] (Samples.chunk1 ++ Samples.chunk2)).
  reflexivity.
Defined.

(** The last call need not report the announced total: five bytes
    received, nine announced. *)
Example last_call_below_announced_total :
  downloadFile Samples.encoded (Some record) (js "https://example.test/lib")
    (js "demo.zip") []
  = ([(2%Z, Num 9); (5%Z, Num 9)], Ok (Samples.chunk1 ++ Samples.chunk2)).
Proof. reflexivity. Qed.

(** C4 as worded fails: a successful fetch of an empty body makes no
    progress call at all. *)
Lemma no_progress_call_for_empty_body :
  ~ (forall fetch base nm calls data,
        downloadFile fetch (Some record) base nm [] = (calls, Ok data) ->
        StronglySorted Z.le (map fst calls) /\ calls <> []).
Proof.
  intros H.
  destruct (H Samples.emptyBody (js "https://example.test/lib") (js "demo.zip") [] [])
    as [_ Hne]; [reflexivity|].
  now apply Hne.
Qed.

Lemma streamed_bytes_are_the_chunks_witness :
  S3.streamOf [Samples.chunk1; Samples.chunk2]
    = streamOf (delivered (S3.streamOf [Samples.chunk1; Samples.chunk2])) /\
  Samples.chunk1 ++ Samples.chunk2
    = concat (delivered (S3.streamOf [Samples.chunk1; Samples.chunk2])) /\
  length (Samples.chunk1 ++ Samples.chunk2)
    = sum_list (map length (delivered (S3.streamOf [Samples.chunk1; Samples.chunk2]))).
Proof.
  apply (streamed_bytes_are_the_chunks Samples.twoChunks record
           (js "https://example.test/lib") (js "demo.zip") []
           [(2%Z, Num 5); (5%Z, Num 5)]
           (Samples.response (Some (js "5"))
              (Some (S3.streamOf [Samples.chunk1; Samples.chunk2]))
              (Throw (js "SyntaxError")))
           (S3.streamOf [Samples.chunk1; Samples.chunk2])
           (Samples.chunk1 ++ Samples.chunk2));
    reflexivity.
Defined.

Lemma non_array_manifest_rejected_witness :
  fetchFileList Samples.objectManifest (js "https://example.test/lib")
  = Throw (js "Invalid library format. Expected a JSON array.").
Proof.
  apply (non_array_manifest_rejected Samples.objectManifest (js "https://example.test/lib")
           (Samples.response None None
              (Ok (VObject [(js "file", VString (js "demo.zip"))])))
           (VObject [(js "file", VString (js "demo.zip"))]));
    try reflexivity.
  intros items. discriminate.
Defined.

End S3Facts.

Module DBFacts.
Import DB.

(** C6: storing bytes under a key and reading the key back at once
    answers the same bytes. *)
Theorem save_then_get (K : jsstring) (B : bytes) (store : gmap jsstring Stored) :
  exists store',
    saveFileToDB NoFault K B store = (store', Ok tt) /\
    getFileFromDB NoFault K store' = Ok (Some B).
Proof.
  eexists. split; [reflexivity|].
  unfold getFileFromDB. simpl. now rewrite lookup_insert_eq.
Qed.

(** C7: reading a key that the store does not hold answers null, not
    an error; an error is what a failing database or request gives. *)
Theorem get_absent_is_null (K : jsstring) (store : gmap jsstring Stored) :
  store !! K = None ->
  getFileFromDB NoFault K store = Ok None /\
  (forall msg, getFileFromDB (OpenError msg) K store = Throw msg) /\
  (forall msg, getFileFromDB (RequestError msg) K store = Throw msg).
Proof.
  intros H. unfold getFileFromDB. simpl. rewrite H. auto.
Qed.

Lemma get_absent_is_null_witness :
  getFileFromDB NoFault (js "demo.zip") ∅ = Ok None /\
  (forall msg, getFileFromDB (OpenError msg) (js "demo.zip") ∅ = Throw msg) /\
  (forall msg, getFileFromDB (RequestError msg) (js "demo.zip") ∅ = Throw msg).
Proof.
  apply (get_absent_is_null (js "demo.zip") ∅). reflexivity.
Defined.

End DBFacts.

Module AppFacts.
Import Types App.

Lemma touched_refl k f : touched k f f.
Proof. unfold touched, sameItem. tauto. Qed.

Lemma touched_hasKey k f f' : touched k f f' -> hasKey k f' = hasKey k f.
Proof. intros [(_ & Hk & _) _]. unfold hasKey. now rewrite Hk. Qed.

Lemma touched_step k (g : FileItem -> FileItem) (c : FileItem -> bool) f f' :
  (forall x, sameItem x (g x)) ->
  touched k f f' ->
  touched k f (if hasKey k f' && c f' then g f' else f').
Proof.
  intros Hg Ht. pose proof (touched_hasKey _ _ _ Ht) as Hk.
  destruct (hasKey k f' && c f') eqn:E; [|exact Ht].
  apply andb_true_iff in E. destruct E as [E _].
  destruct Ht as [Hs Hu]. split.
  - specialize (Hg f'). unfold sameItem in *. intuition congruence.
  - intros Hf. congruence.
Qed.

Lemma Forall2_map_r {A B} (R : A -> B -> Prop) (g : B -> B) l l' :
  Forall2 R l l' ->
  (forall x y, R x y -> R x (g y)) ->
  Forall2 R l (map g l').
Proof. induction 1; simpl; constructor; auto. Qed.

Lemma update_touched k g l l' :
  (forall x, sameItem x (g x)) ->
  Forall2 (touched k) l l' ->
  Forall2 (touched k) l (update k g l').
Proof.
  intros Hg H. unfold update. apply Forall2_map_r; [exact H|].
  intros x y Ht.
  pose proof (touched_step k g (fun _ => true) x y Hg Ht) as Hs.
  now rewrite andb_true_r in Hs.
Qed.

Lemma sameItem_with_status st p x : sameItem x (with_status st p x).
Proof. unfold sameItem. simpl. tauto. Qed.

Lemma sameItem_with_error msg x : sameItem x (with_error msg x).
Proof. unfold sameItem. simpl. tauto. Qed.

Lemma onProgress_touched clock k l received total s :
  Forall2 (touched k) l (files s) ->
  Forall2 (touched k) l (files (onProgress clock k received total s)).
Proof.
  intros H. unfold onProgress.
  destruct total as [|t]; [exact H|].
  destruct ((100 <? clock (ticks s) - lastUpdate s)%Z && (0 <? t)%Z); [|exact H].
  simpl. apply Forall2_map_r; [exact H|].
  intros x y Ht.
  apply (touched_step k (with_progress (Some (percentage received t)))
           (fun y => negb (bool_decide (downloadProgress y = Some (percentage received t))))
           x y); [|exact Ht].
  intros f. apply sameItem_with_status.
Qed.

(** A property of the caller's state that the callback keeps is kept
    by the whole download. *)
Lemma downloadFile_keeps {S} (P : S -> Prop) fetch (cb : Z -> number -> S -> S)
    base nm s :
  (forall r t x, P x -> P (cb r t x)) ->
  P s -> P (S3.downloadFile fetch (Some cb) base nm s).1.
Proof.
  intros Hcb Hs. unfold S3.downloadFile.
  destruct (fetch _) as [resp|e]; [|exact Hs].
  destruct (S3.ok resp); simpl negb; cbv iota; [|exact Hs].
  destruct (S3.body resp) as [reader|].
  - rewrite S3Facts.readLoop_spec.
    assert (Hfold : forall l x, P x ->
              P (fold_left (fun s r => S3.call (Some cb) r (S3.totalOf resp) s) l x)).
    { induction l as [|r l IH]; intros x Hx; simpl; [exact Hx|].
      apply IH, Hcb, Hx. }
    destruct (S3.failure reader); simpl; now apply Hfold.
  - destruct (S3.arrayBuffer resp); [|exact Hs].
    destruct (S3.totalOf resp) as [|t]; simpl; [exact Hs|].
    destruct (0 <? t)%Z; simpl; auto.
Qed.

Lemma failed_marks k l l' :
  Forall2 (touched k) l l' ->
  Forall2 (markedFailed k) l (update k (with_error (js "Download failed")) l').
Proof.
  induction 1 as [|f f' l l' Ht _ IH]; simpl; constructor; [|exact IH].
  unfold markedFailed. rewrite (touched_hasKey _ _ _ Ht).
  destruct Ht as [Hs Hu].
  destruct (hasKey k f) eqn:Hk.
  - split; [|simpl; auto].
    pose proof (sameItem_with_error (js "Download failed") f') as He.
    unfold sameItem in *. intuition congruence.
  - auto.
Qed.

(** C8, as the code has it: when the download or the save fails,
    every item with the key gets the status error and the message
    Download failed, its other identity fields unchanged; every other
    item is left as it was.  The status does not go back to what it
    was before the download. *)
Theorem failed_download_marks_error fetch clock fault cfg k s s2 r :
  S3.downloadFile fetch (Some (onProgress clock k)) (url cfg) k (start k s) = (s2, r) ->
  (exists msg, r = Throw msg) \/ fault <> DB.NoFault ->
  Forall2 (markedFailed k) (files s)
    (files (handleDownload fetch clock fault (Some cfg) k s)).
Proof.
  intros Hrun Hfail.
  assert (Hinv : Forall2 (touched k) (files s) (files s2)).
  { change s2 with (s2, r).1. rewrite <- Hrun.
    apply (downloadFile_keeps (fun x => Forall2 (touched k) (files s) (files x))).
    - intros rc t x. apply onProgress_touched.
    - unfold start. simpl. apply update_touched; [apply sameItem_with_status|].
      apply Forall_Forall2_diag, List.Forall_forall. intros f _. apply touched_refl. }
  unfold handleDownload. rewrite Hrun.
  destruct r as [zipData|msg].
  - destruct Hfail as [[msg Hm]|Hfault]; [discriminate|].
    assert (Hsave : exists e st, DB.saveFileToDB fault k zipData
               (store (setFiles (update k (with_progress (Some 100%Z))) s2)) = (st, Throw e)).
    { destruct fault; [congruence| |]; simpl; eauto. }
    destruct Hsave as (e & st & ->).
    simpl. apply failed_marks. apply update_touched; [|exact Hinv].
    intros x. apply sameItem_with_status.
  - simpl. now apply failed_marks.
Qed.

(** *** The rules at the sample inputs *)

Example offline_download :
  files (handleDownload Samples.offline Samples.noon DB.NoFault
           (Some Samples.config) (js "demo.zip") Samples.catalog)
  = [with_error (js "Download failed")
       (with_status downloading (Some 0%Z) Samples.demo)].
Proof. reflexivity. Qed.

Lemma failed_download_marks_error_witness :
  Forall2 (markedFailed (js "demo.zip")) (files Samples.catalog)
    (files (handleDownload Samples.offline Samples.noon DB.NoFault
              (Some Samples.config) (js "demo.zip") Samples.catalog)).
Proof.
  apply (failed_download_marks_error Samples.offline Samples.noon DB.NoFault
           Samples.config (js "demo.zip") Samples.catalog
           (start (js "demo.zip") Samples.catalog) (Throw (js "Failed to fetch"))).
  - reflexivity.
  - left. exists (js "Failed to fetch"). reflexivity.
Defined.

(** C8 as worded fails: after a failed download the item is not back
    to the status it had before. *)
Lemma failed_download_does_not_revert :
  ~ (forall fetch clock fault cfg k s s2 msg,
        S3.downloadFile fetch (Some (onProgress clock k)) (url cfg) k (start k s)
          = (s2, Throw msg) ->
        Forall2 (fun f f' => hasKey k f = true -> status f' = status f)
          (files s) (files (handleDownload fetch clock fault (Some cfg) k s))).
Proof.
  intros H.
  specialize (H Samples.offline Samples.noon DB.NoFault Samples.config
                (js "demo.zip") Samples.catalog
                (start (js "demo.zip") Samples.catalog) (js "Failed to fetch") eq_refl).
  vm_compute in H. inversion H as [|? ? ? ? Hs _]; subst.
  specialize (Hs eq_refl). discriminate.
Qed.

End AppFacts.

(** * Further properties of the services *)

Module DBExtra.
Import DB.

(** X1: a later save under the same key replaces the earlier bytes
    entirely, and a save leaves every other key as it was. *)
Theorem save_overwrites_and_frames (K K' : jsstring) (A B : bytes)
    (store : gmap jsstring Stored) :
  K' <> K ->
  (saveFileToDB NoFault K B (saveFileToDB NoFault K A store).1).1
    = (saveFileToDB NoFault K B store).1 /\
  getFileFromDB NoFault K (saveFileToDB NoFault K B (saveFileToDB NoFault K A store).1).1
    = Ok (Some B) /\
  getFileFromDB NoFault K' (saveFileToDB NoFault K B store).1
    = getFileFromDB NoFault K' store.
Proof.
  intros Hne. unfold saveFileToDB, getFileFromDB. simpl.
  rewrite insert_insert_eq, lookup_insert_eq, lookup_insert_ne by congruence.
  auto.
Qed.

Lemma save_overwrites_and_frames_witness :
  (saveFileToDB NoFault (js "a.zip") [Byte.x02]
     (saveFileToDB NoFault (js "a.zip") [Byte.x01] ∅).1).1
    = (saveFileToDB NoFault (js "a.zip") [Byte.x02] ∅).1 /\
  getFileFromDB NoFault (js "a.zip")
    (saveFileToDB NoFault (js "a.zip") [Byte.x02]
       (saveFileToDB NoFault (js "a.zip") [Byte.x01] ∅).1).1
    = Ok (Some [Byte.x02]) /\
  getFileFromDB NoFault (js "b.zip") (saveFileToDB NoFault (js "a.zip") [Byte.x02] ∅).1
    = getFileFromDB NoFault (js "b.zip") ∅.
Proof.
  apply (save_overwrites_and_frames (js "a.zip") (js "b.zip") [Byte.x01] [Byte.x02] ∅).
  discriminate.
Defined.

(** X2: after a delete the key reads as null and the other keys read
    as before; deleting a key that is not stored succeeds and leaves
    the store as it was. *)
Theorem delete_then_get (K K' : jsstring) (store : gmap jsstring Stored) :
  K' <> K ->
  (deleteFileFromDB NoFault K store).2 = Ok tt /\
  getFileFromDB NoFault K (deleteFileFromDB NoFault K store).1 = Ok None /\
  getFileFromDB NoFault K' (deleteFileFromDB NoFault K store).1
    = getFileFromDB NoFault K' store /\
  (store !! K = None -> (deleteFileFromDB NoFault K store).1 = store).
Proof.
  intros Hne. unfold deleteFileFromDB, getFileFromDB. simpl.
  rewrite lookup_delete_eq, lookup_delete_ne by congruence.
  repeat split. intros H. now apply delete_id.
Qed.

Lemma delete_then_get_witness :
  (deleteFileFromDB NoFault (js "a.zip") ∅).2 = Ok tt /\
  getFileFromDB NoFault (js "a.zip") (deleteFileFromDB NoFault (js "a.zip") ∅).1 = Ok None /\
  getFileFromDB NoFault (js "b.zip") (deleteFileFromDB NoFault (js "a.zip") ∅).1
    = getFileFromDB NoFault (js "b.zip") ∅ /\
  ((∅ : gmap jsstring Stored) !! js "a.zip" = None ->
   (deleteFileFromDB NoFault (js "a.zip") ∅).1 = ∅).
Proof.
  apply (delete_then_get (js "a.zip") (js "b.zip") ∅). discriminate.
Defined.

Lemma keys_spec (store : gmap jsstring Stored) (k : jsstring) :
  k ∈ map fst (map_to_list store) <-> is_Some (store !! k).
Proof.
  change (map fst (map_to_list store)) with ((map_to_list store).*1).
  rewrite list_elem_of_fmap. split.
  - intros ([k' v] & -> & Hin). apply elem_of_map_to_list in Hin. simpl. eauto.
  - intros [v Hv]. exists (k, v). split; [reflexivity|]. now apply elem_of_map_to_list.
Qed.

(** X3: the keys listed are exactly the keys stored, each once; a key
    is listed after it is saved and no longer after it is deleted. *)
Theorem stored_keys_are_the_keys (store : gmap jsstring Stored) (l : list jsstring) :
  getStoredKeys NoFault store = Ok l ->
  NoDup l /\
  (forall k, k ∈ l <-> is_Some (store !! k)) /\
  (forall K B l', getStoredKeys NoFault (saveFileToDB NoFault K B store).1 = Ok l' -> K ∈ l') /\
  (forall K l', getStoredKeys NoFault (deleteFileFromDB NoFault K store).1 = Ok l' -> K ∉ l').
Proof.
  unfold getStoredKeys. simpl. intros [= <-]. repeat split.
  - apply (NoDup_fst_map_to_list store).
  - apply keys_spec.
  - apply keys_spec.
  - intros K B l' [= <-]. apply keys_spec. rewrite lookup_insert_eq. eauto.
  - intros K l' [= <-] Hin. apply keys_spec in Hin. rewrite lookup_delete_eq in Hin.
    now destruct Hin.
Qed.

Lemma stored_keys_are_the_keys_witness :
  let store : gmap jsstring Stored := {[ js "demo.zip" := SBlob (js "application/zip") [] ]} in
  NoDup [js "demo.zip"] /\
  (forall k, k ∈ [js "demo.zip"] <-> is_Some (store !! k)) /\
  (forall K B l', getStoredKeys NoFault (saveFileToDB NoFault K B store).1 = Ok l' -> K ∈ l') /\
  (forall K l', getStoredKeys NoFault (deleteFileFromDB NoFault K store).1 = Ok l' -> K ∉ l').
Proof.
  apply (stored_keys_are_the_keys
           {[ js "demo.zip" := SBlob (js "application/zip") [] ]} [js "demo.zip"]).
  vm_compute. reflexivity.
Defined.

(** X4: when the database does not open or the request fails, a save
    or a delete rejects with that error and the store is left as it
    was; reads and listings reject with the same error. *)
Theorem faults_change_nothing (f : Fault) (K : jsstring) (B : bytes)
    (store : gmap jsstring Stored) :
  f <> NoFault ->
  exists msg,
    (f = OpenError msg \/ f = RequestError msg) /\
    saveFileToDB f K B store = (store, Throw msg) /\
    deleteFileFromDB f K store = (store, Throw msg) /\
    getFileFromDB f K store = Throw msg /\
    getStoredKeys f store = Throw msg.
Proof.
  intros Hf. destruct f as [|msg|msg]; [congruence| |]; exists msg; simpl; auto.
Qed.

Lemma faults_change_nothing_witness :
  exists msg,
    (RequestError (js "QuotaExceededError") = OpenError msg \/
     RequestError (js "QuotaExceededError") = RequestError msg) /\
    saveFileToDB (RequestError (js "QuotaExceededError")) (js "a.zip") [] ∅ = (∅, Throw msg) /\
    deleteFileFromDB (RequestError (js "QuotaExceededError")) (js "a.zip") ∅ = (∅, Throw msg) /\
    getFileFromDB (RequestError (js "QuotaExceededError")) (js "a.zip") ∅ = Throw msg /\
    getStoredKeys (RequestError (js "QuotaExceededError")) ∅ = Throw msg.
Proof.
  apply (faults_change_nothing (RequestError (js "QuotaExceededError")) (js "a.zip") [] ∅).
  discriminate.
Defined.

End DBExtra.

Module S3Extra.
Import Str StrFacts Types S3.

(** *** [joinUrl] *)

Lemma stripTrailingSlashes_split s :
  exists n, s = stripTrailingSlashes s ++ replicate n slash.
Proof.
  induction s as [|c r [n IH]]; simpl.
  - now exists 0.
  - destruct (stripTrailingSlashes r) as [|x r'] eqn:E.
    + simpl in IH. destruct (Ascii.eqb_spec c slash) as [->|Hc].
      * exists (S n). simpl. now rewrite <- IH.
      * exists n. simpl. now rewrite <- IH.
    + exists n. now rewrite IH at 1.
Qed.

Lemma stripTrailingSlashes_end s p : stripTrailingSlashes s <> p ++ [slash].
Proof.
  revert p. induction s as [|c r IH]; intros p; simpl.
  - now destruct p.
  - destruct (stripTrailingSlashes r) as [|x r'] eqn:E.
    + destruct (Ascii.eqb_spec c slash) as [->|Hc].
      * now destruct p.
      * destruct p as [|a [|b p]]; simpl; congruence.
    + destruct p as [|a p]; simpl; [discriminate|].
      intros [= <- H]. now apply IH in H.
Qed.

Lemma stripTrailingSlashes_snoc s :
  stripTrailingSlashes (s ++ [slash]) = stripTrailingSlashes s.
Proof.
  induction s as [|c r IH]; simpl; [reflexivity|]. now rewrite IH.
Qed.

Lemma stripLeading_split s :
  exists pieces,
    List.Forall (fun x => x = js "/" \/ x = js "./") pieces /\
    s = concat pieces ++ stripLeading s.
Proof.
  remember (length s) as n eqn:Hn. revert s Hn.
  induction n as [n IH] using lt_wf_ind. intros s Hn.
  destruct s as [|c r]; [exists []; split; [constructor|reflexivity]|].
  simpl. destruct (Ascii.eqb_spec c slash) as [->|Hc].
  - destruct (IH (length r)) with (s := r) as (ps & Hps & Hr);
      [subst n; simpl; lia|reflexivity|].
    exists (js "/" :: ps). split; [constructor; auto|].
    simpl. now rewrite <- Hr.
  - destruct (Ascii.eqb_spec c (ascii_of_nat 46)) as [->|Hd];
      [|exists []; split; [constructor|reflexivity]].
    destruct r as [|d r']; [exists []; split; [constructor|reflexivity]|].
    destruct (Ascii.eqb_spec d slash) as [->|Hd];
      [|exists []; split; [constructor|reflexivity]].
    destruct (IH (length r')) with (s := r') as (ps & Hps & Hr);
      [subst n; simpl; lia|reflexivity|].
    exists (js "./" :: ps). split; [constructor; auto|].
    simpl. now rewrite <- Hr.
Qed.

Lemma startsWith_cons a p c r :
  startsWith (c :: r) (a :: p) = if Ascii.eqb a c then startsWith r p else false.
Proof. unfold startsWith. simpl. now destruct (Ascii.eqb a c). Qed.

Lemma startsWith_slash c r : c <> slash -> startsWith (c :: r) (js "/") = false.
Proof.
  intros Hc. change (js "/") with [slash]. rewrite startsWith_cons.
  destruct (Ascii.eqb slash c) eqn:E; [|reflexivity].
  apply Ascii.eqb_eq in E. congruence.
Qed.

Lemma startsWith_dot_slash c d r :
  c <> ascii_of_nat 46 \/ d <> slash -> startsWith (c :: d :: r) (js "./") = false.
Proof.
  intros H. change (js "./") with [ascii_of_nat 46; slash]. rewrite !startsWith_cons.
  destruct (Ascii.eqb _ c) eqn:E1; [|reflexivity].
  destruct (Ascii.eqb slash d) eqn:E2; [|reflexivity].
  apply Ascii.eqb_eq in E1, E2. destruct H; congruence.
Qed.

Lemma stripLeading_head s :
  startsWith (stripLeading s) (js "/") = false /\
  startsWith (stripLeading s) (js "./") = false.
Proof.
  remember (length s) as n eqn:Hn. revert s Hn.
  induction n as [n IH] using lt_wf_ind. intros s Hn.
  destruct s as [|c r]; [split; reflexivity|].
  simpl. destruct (Ascii.eqb_spec c slash) as [->|Hc].
  - apply (IH (length r)); [subst n; simpl; lia|reflexivity].
  - destruct (Ascii.eqb_spec c (ascii_of_nat 46)) as [->|Hd].
    + destruct r as [|d r']; [split; reflexivity|].
      destruct (Ascii.eqb_spec d slash) as [->|Hd].
      * apply (IH (length r')); [subst n; simpl; lia|reflexivity].
      * split; [now apply startsWith_slash|]. apply startsWith_dot_slash. now right.
    + split; [now apply startsWith_slash|].
      destruct r as [|d r']; [|apply startsWith_dot_slash; now left].
      change (js "./") with [ascii_of_nat 46; slash]. rewrite startsWith_cons.
      destruct (Ascii.eqb _ c) eqn:E; [|reflexivity].
      apply Ascii.eqb_eq in E. exfalso. apply Hd. now rewrite <- E.
Qed.

(** X5: for a path that is not empty and not an absolute http or https
    URL, the result is the base without its trailing slashes, one
    slash, and the path without its leading run of slashes and ./
    markers: the part before the joining slash does not end with a
    slash and the part after it starts neither with a slash nor with
    the marker. *)
Theorem joinUrl_one_separator (baseUrl path : jsstring) :
  path <> [] ->
  startsWith path (js "http://") = false ->
  startsWith path (js "https://") = false ->
  exists b p n pieces,
    joinUrl baseUrl path = b ++ [slash] ++ p /\
    baseUrl = b ++ replicate n slash /\
    (forall x, b <> x ++ [slash]) /\
    List.Forall (fun x => x = js "/" \/ x = js "./") pieces /\
    path = concat pieces ++ p /\
    startsWith p (js "/") = false /\
    startsWith p (js "./") = false.
Proof.
  intros Hne H1 H2.
  destruct (stripTrailingSlashes_split baseUrl) as [n Hn].
  destruct (stripLeading_split path) as (pieces & Hps & Hp).
  destruct (stripLeading_head path) as [Hs1 Hs2].
  exists (stripTrailingSlashes baseUrl), (stripLeading path), n, pieces.
  repeat split; try assumption.
  - unfold joinUrl. rewrite bool_decide_eq_false_2 by assumption.
    now rewrite H1, H2.
  - intros x. apply stripTrailingSlashes_end.
Qed.

Lemma joinUrl_one_separator_witness :
  exists b p n pieces,
    joinUrl (js "https://example.test/lib//") (js "./demo.zip") = b ++ [slash] ++ p /\
    js "https://example.test/lib//" = b ++ replicate n slash /\
    (forall x, b <> x ++ [slash]) /\
    List.Forall (fun x => x = js "/" \/ x = js "./") pieces /\
    js "./demo.zip" = concat pieces ++ p /\
    startsWith p (js "/") = false /\
    startsWith p (js "./") = false.
Proof.
  apply (joinUrl_one_separator (js "https://example.test/lib//") (js "./demo.zip"));
    [discriminate|reflexivity|reflexivity].
Defined.

(** X6: for such a path, one more trailing slash on the base, or one
    more leading slash or ./ marker on the path, does not change the
    result. *)
Theorem joinUrl_ignores_extra_separators (baseUrl path : jsstring) :
  path <> [] ->
  startsWith path (js "http://") = false ->
  startsWith path (js "https://") = false ->
  joinUrl (baseUrl ++ [slash]) path = joinUrl baseUrl path /\
  joinUrl baseUrl (js "/" ++ path) = joinUrl baseUrl path /\
  joinUrl baseUrl (js "./" ++ path) = joinUrl baseUrl path.
Proof.
  intros Hne H1 H2. unfold joinUrl.
  rewrite bool_decide_eq_false_2 by assumption. rewrite H1, H2. simpl.
  rewrite stripTrailingSlashes_snoc. auto.
Qed.

Lemma joinUrl_ignores_extra_separators_witness :
  joinUrl (js "https://example.test/lib" ++ [slash]) (js "demo.zip")
    = joinUrl (js "https://example.test/lib") (js "demo.zip") /\
  joinUrl (js "https://example.test/lib") (js "/" ++ js "demo.zip")
    = joinUrl (js "https://example.test/lib") (js "demo.zip") /\
  joinUrl (js "https://example.test/lib") (js "./" ++ js "demo.zip")
    = joinUrl (js "https://example.test/lib") (js "demo.zip").
Proof.
  apply (joinUrl_ignores_extra_separators (js "https://example.test/lib") (js "demo.zip"));
    [discriminate|reflexivity|reflexivity].
Defined.

(** *** [fetchFileList] *)

Lemma mapM_Ok {A B} (f : A -> outcome B) l r :
  mapM f l = Ok r -> Forall2 (fun a b => f a = Ok b) l r.
Proof.
  revert r. induction l as [|a l IH]; intros r; simpl.
  - intros [= <-]. constructor.
  - unfold bindO. destruct (f a) as [b|e] eqn:Ea; [|discriminate].
    destruct (mapM f l) as [bs|e]; [|discriminate].
    intros [= <-]. constructor; auto.
Qed.

Lemma mapM_Throw {A B} (f : A -> outcome B) l e :
  mapM f l = Throw e -> exists a, In a l /\ f a = Throw e.
Proof.
  induction l as [|a l IH]; simpl; [discriminate|].
  unfold bindO. destruct (f a) as [b|e'] eqn:Ea.
  - destruct (mapM f l) as [bs|e']; [discriminate|].
    intros [= <-]. destruct (IH eq_refl) as (x & Hx & Hf). eauto.
  - intros [= <-]. eauto.
Qed.

Lemma get_Throw item k e : get item k = Throw e -> e = typeError.
Proof.
  destruct item; simpl; try discriminate; try congruence.
  destruct (List.find _ props); discriminate.
Qed.

Lemma toFileItem_Throw baseUrl item e : toFileItem baseUrl item = Throw e -> e = typeError.
Proof.
  unfold toFileItem, bindO.
  destruct (get item (js "thumbnail")) as [th|] eqn:E1;
    [|apply get_Throw in E1; congruence].
  destruct (if truthy th then _ else _) as [thumb|e0] eqn:Et.
  - destruct (get item (js "id")) as [i|] eqn:E2; [|apply get_Throw in E2; congruence].
    destruct (get item (js "file")) as [f|] eqn:E3; [|apply get_Throw in E3; congruence].
    destruct (get item (js "title")) as [t|] eqn:E4; [|apply get_Throw in E4; congruence].
    destruct (get item (js "size")) as [sz|] eqn:E5; [|apply get_Throw in E5; congruence].
    discriminate.
  - destruct (truthy th); [|discriminate]. destruct th; congruence.
Qed.

(** X7: a listing is returned only for an ok response whose body
    parses to an array; it has one item per element, in order, and the
    element determines every field of its item: the key is the
    element's file; the id and the title are the element's own when
    those are truthy and the file otherwise; the size label is the
    element's size when truthy and Unknown otherwise; the thumbnail URL
    is the base joined with the element's thumbnail when that is truthy,
    and is absent otherwise; the status is remote, and there is no
    progress, error or local URL. *)
Theorem fetchFileList_items fetch (baseUrl : jsstring) (items : list FileItem) :
  fetchFileList fetch baseUrl = Ok items ->
  exists resp data,
    fetch (joinUrl baseUrl (js "library.json")) = Ok resp /\
    ok resp = true /\
    json resp = Ok (VArray data) /\
    Forall2 (fun d it =>
      exists i f t sz th,
        get d (js "id") = Ok i /\ get d (js "file") = Ok f /\
        get d (js "title") = Ok t /\ get d (js "size") = Ok sz /\
        get d (js "thumbnail") = Ok th /\
        (truthy th = true -> exists path, th = VString path) /\
        it = {| id := if truthy i then i else f;
                key := f;
                title := if truthy t then t else f;
                sizeLabel := if truthy sz then sz else VString (js "Unknown");
                thumbnailUrl := match th with
                                | VString (c :: path) => Some (joinUrl baseUrl (c :: path))
                                | _ => None
                                end;
                status := remote; downloadProgress := None;
                errorMsg := None; localUrl := None |})
      data items.
Proof.
  unfold fetchFileList, bindO. intros H.
  destruct (fetch _) as [resp|e] eqn:Hf; [|discriminate].
  destruct (ok resp) eqn:Hok; simpl in H;
    [|destruct (http_status resp =? 404)%Z; discriminate].
  destruct (json resp) as [data|e] eqn:Hj; [|discriminate].
  destruct data as [| | | | |data|]; try discriminate.
  exists resp, data.
  split; [reflexivity|]. split; [assumption|]. split; [assumption|].
  apply mapM_Ok in H. eapply Forall2_impl; [exact H|].
  intros d it. unfold toFileItem, bindO.
  destruct (get d (js "thumbnail")) as [th|] eqn:Eth; [|discriminate].
  destruct (if truthy th then _ else _) as [thumb|] eqn:Ethumb; [|discriminate].
  destruct (get d (js "id")) as [i|] eqn:Ei; [|discriminate].
  destruct (get d (js "file")) as [f|] eqn:Ef; [|discriminate].
  destruct (get d (js "title")) as [t|] eqn:Et; [|discriminate].
  destruct (get d (js "size")) as [sz|] eqn:Es; [|discriminate].
  intros [= <-]. exists i, f, t, sz, th.
  split; [reflexivity|]. split; [reflexivity|]. split; [reflexivity|].
  split; [reflexivity|]. split; [reflexivity|].
  unfold or_else.
  assert (Hth : (truthy th = true -> exists path, th = VString path) /\
                thumb = match th with
                        | VString (c :: path) => Some (joinUrl baseUrl (c :: path))
                        | _ => None
                        end).
  { destruct th as [| |b|n|[|c path]|l|props]; simpl in Ethumb |- *;
      try (injection Ethumb as <-); try discriminate;
      try (split; [discriminate|reflexivity]).
    - destruct b; [discriminate|]. injection Ethumb as <-.
      split; [discriminate|reflexivity].
    - destruct (n =? 0)%Z; [|discriminate]. injection Ethumb as <-.
      split; [discriminate|reflexivity].
    - split; [eauto|reflexivity]. }
  destruct Hth as [Hs ->]. split; [exact Hs|reflexivity].
Qed.

Lemma fetchFileList_items_witness :
  exists resp data,
    (fun _ => Ok (Samples.response None None (Ok Samples.manifest)))
      (joinUrl (js "https://example.test/lib") (js "library.json")) = Ok resp /\
    ok resp = true /\
    json resp = Ok (VArray data) /\
    Forall2 (fun d it =>
      exists i f t sz th,
        get d (js "id") = Ok i /\ get d (js "file") = Ok f /\
        get d (js "title") = Ok t /\ get d (js "size") = Ok sz /\
        get d (js "thumbnail") = Ok th /\
        (truthy th = true -> exists path, th = VString path) /\
        it = {| id := if truthy i then i else f;
                key := f;
                title := if truthy t then t else f;
                sizeLabel := if truthy sz then sz else VString (js "Unknown");
                thumbnailUrl := match th with
                                | VString (c :: path) =>
                                    Some (joinUrl (js "https://example.test/lib") (c :: path))
                                | _ => None
                                end;
                status := remote; downloadProgress := None;
                errorMsg := None; localUrl := None |})
      data Samples.listed.
Proof.
  apply (fetchFileList_items
           (fun _ => Ok (Samples.response None None (Ok Samples.manifest)))
           (js "https://example.test/lib")).
  reflexivity.
Defined.

(** X8: one element that is null makes the whole listing fail with a
    type error, whatever the other elements are. *)
Theorem fetchFileList_null_element fetch (baseUrl : jsstring) resp data :
  fetch (joinUrl baseUrl (js "library.json")) = Ok resp ->
  ok resp = true ->
  json resp = Ok (VArray data) ->
  In VNull data ->
  fetchFileList fetch baseUrl = Throw typeError.
Proof.
  intros Hf Hok Hj Hin. unfold fetchFileList, bindO. rewrite Hf, Hok, Hj. simpl.
  destruct (mapM (toFileItem baseUrl) data) as [r|e] eqn:E.
  - exfalso. apply mapM_Ok in E.
    clear Hf Hok Hj. induction E as [|d it l l' Hd _ IH]; [contradiction|].
    destruct Hin as [->|Hin]; [|auto].
    unfold toFileItem, bindO in Hd. simpl in Hd. discriminate.
  - apply mapM_Throw in E. destruct E as (a & _ & Ha).
    apply toFileItem_Throw in Ha. now subst.
Qed.

Lemma fetchFileList_null_element_witness :
  fetchFileList
    (fun _ => Ok (Samples.response None None
       (Ok (VArray [VObject [(js "file", VString (js "demo.zip"))]; VNull]))))
    (js "https://example.test/lib")
  = Throw typeError.
Proof.
  apply (fetchFileList_null_element
           (fun _ => Ok (Samples.response None None
              (Ok (VArray [VObject [(js "file", VString (js "demo.zip"))]; VNull]))))
           (js "https://example.test/lib")
           (Samples.response None None
              (Ok (VArray [VObject [(js "file", VString (js "demo.zip"))]; VNull])))
           [VObject [(js "file", VString (js "demo.zip"))]; VNull]);
    try reflexivity.
  right. left. reflexivity.
Defined.

(** *** [downloadFile] *)

(** X9: when the stream fails after some chunks, the fetch fails with
    the stream's error and returns no bytes, although the callback was
    already called once for each chunk delivered before the failure. *)
Theorem stream_error_fails_download {S} fetch (cb : Z -> number -> S -> S)
    (baseUrl fileName : jsstring) (s : S) resp reader msg :
  fetch (joinUrl baseUrl fileName) = Ok resp ->
  ok resp = true ->
  body resp = Some reader ->
  failure reader = Some msg ->
  downloadFile fetch (Some cb) baseUrl fileName s =
    (fold_left (fun s r => cb r (totalOf resp) s) (runningSums 0 (delivered reader)) s,
     Throw msg) /\
  length (runningSums 0 (delivered reader)) = length (delivered reader).
Proof.
  intros Hf Hok Hb Hfail.
  rewrite (S3Facts.downloadFile_streamed _ _ _ _ _ _ _ Hf Hok Hb), Hfail.
  split; [reflexivity|apply S3Facts.runningSums_length].
Qed.

Lemma stream_error_fails_download_witness :
  downloadFile
    (fun _ => Ok (Samples.response (Some (js "5"))
                    (Some (Chunk Samples.chunk1 (Fail (js "network error"))))
                    (Throw (js "SyntaxError"))))
    (Some record) (js "https://example.test/lib") (js "demo.zip") [] =
    (fold_left (fun s r => record r
        (totalOf (Samples.response (Some (js "5"))
                    (Some (Chunk Samples.chunk1 (Fail (js "network error"))))
                    (Throw (js "SyntaxError")))) s)
       (runningSums 0 (delivered (Chunk Samples.chunk1 (Fail (js "network error"))))) [],
     Throw (js "network error")) /\
  length (runningSums 0 (delivered (Chunk Samples.chunk1 (Fail (js "network error")))))
    = length (delivered (Chunk Samples.chunk1 (Fail (js "network error")))).
Proof.
  apply (stream_error_fails_download
           (fun _ => Ok (Samples.response (Some (js "5"))
                    (Some (Chunk Samples.chunk1 (Fail (js "network error"))))
                    (Throw (js "SyntaxError"))))
           record (js "https://example.test/lib") (js "demo.zip") []);
    reflexivity.
Defined.

(** X10: the caller's state changes only through the callback: without
    a callback, or when the fetch rejects or the response is not ok, it
    is left as it was; and without a callback the stream is not read:
    the bytes of an ok response are those of its array buffer. *)
Theorem download_without_progress {S} fetch (cb : option (Z -> number -> S -> S))
    (baseUrl fileName : jsstring) (s : S) :
  (cb = None \/
   (exists msg, fetch (joinUrl baseUrl fileName) = Throw msg) \/
   (exists resp, fetch (joinUrl baseUrl fileName) = Ok resp /\ ok resp = false)) ->
  (downloadFile fetch cb baseUrl fileName s).1 = s /\
  (forall resp, cb = None -> fetch (joinUrl baseUrl fileName) = Ok resp -> ok resp = true ->
     (downloadFile fetch cb baseUrl fileName s).2 = arrayBuffer resp) /\
  (forall resp, fetch (joinUrl baseUrl fileName) = Ok resp -> ok resp = false ->
     (downloadFile fetch cb baseUrl fileName s).2
       = Throw (js "Failed to download file: " ++ statusText resp)).
Proof.
  intros H. unfold downloadFile. split; [|split].
  - destruct H as [->|[[msg ->]|(resp & -> & ->)]]; try reflexivity.
    destruct (fetch _) as [resp|e]; [|reflexivity].
    destruct (ok resp); simpl; [|reflexivity].
    destruct (body resp); destruct (arrayBuffer resp); reflexivity.
  - intros resp -> -> ->. simpl.
    destruct (body resp); destruct (arrayBuffer resp); reflexivity.
  - intros resp -> ->. reflexivity.
Qed.

Lemma download_without_progress_witness :
  (downloadFile Samples.twoChunks (@None (Z -> number -> unit -> unit))
     (js "https://example.test/lib") (js "demo.zip") tt).1 = tt /\
  (forall resp, @None (Z -> number -> unit -> unit) = None ->
     Samples.twoChunks (joinUrl (js "https://example.test/lib") (js "demo.zip")) = Ok resp ->
     ok resp = true ->
     (downloadFile Samples.twoChunks (@None (Z -> number -> unit -> unit))
        (js "https://example.test/lib") (js "demo.zip") tt).2 = arrayBuffer resp) /\
  (forall resp,
     Samples.twoChunks (joinUrl (js "https://example.test/lib") (js "demo.zip")) = Ok resp ->
     ok resp = false ->
     (downloadFile Samples.twoChunks (@None (Z -> number -> unit -> unit))
        (js "https://example.test/lib") (js "demo.zip") tt).2
       = Throw (js "Failed to download file: " ++ statusText resp)).
Proof.
  apply (download_without_progress Samples.twoChunks None
           (js "https://example.test/lib") (js "demo.zip") tt).
  left. reflexivity.
Defined.

(** *** [parseInt] on the announced size *)

Lemma digits_of_uint (d : Decimal.uint) (a : nat) :
  digits (Some (Z.of_nat a)) (js (NilEmpty.string_of_uint d))
  = Some (Z.of_nat (Nat.of_uint_acc d a)).
Proof.
  revert a. induction d; intros a; simpl; [reflexivity|..];
    rewrite <- IHd; do 2 f_equal; rewrite Nat.tail_mul_spec; lia.
Qed.

Lemma digit_char c d :
  digit c = Some d ->
  isWhite c = false /\ Ascii.eqb c (ascii_of_nat 45) = false /\
  Ascii.eqb c (ascii_of_nat 43) = false.
Proof.
  destruct c as [[] [] [] [] [] [] [] []]; vm_compute; intros H;
    try discriminate; auto.
Qed.

Lemma parseInt_unsigned c r d :
  digit c = Some d ->
  parseInt (c :: r) = match digits (Some 0%Z) (c :: r) with
                      | Some n => Num n
                      | None => NaN
                      end.
Proof.
  intros Hc. destruct (digit_char c d Hc) as (Hw & Hm & Hp).
  unfold parseInt. cbn [trimStart]. rewrite Hw, Hm, Hp.
  cbn [digits]. rewrite Hc. cbn [default].
  destruct (digits _ r) as [n|]; [|reflexivity].
  now rewrite Z.mul_1_l.
Qed.

Lemma parseInt_of_uint (d : Decimal.uint) :
  d <> Decimal.Nil ->
  parseInt (js (NilEmpty.string_of_uint d)) = Num (Z.of_nat (Nat.of_uint d)).
Proof.
  intros Hd. unfold Nat.of_uint.
  pose proof (digits_of_uint d 0) as Hdig.
  change (Z.of_nat 0) with 0%Z in Hdig.
  destruct d; [congruence|..];
    cbn [NilEmpty.string_of_uint js list_ascii_of_string] in *;
    (erewrite parseInt_unsigned; [rewrite Hdig; reflexivity|reflexivity]).
Qed.

(** X11: a Content-Length header that is the decimal writing of a
    number up to 2^53, which a double holds exactly, announces that
    number. *)
Theorem announced_total (resp : Response) (n : nat) :
  (Z.of_nat n <= 2 ^ 53)%Z ->
  contentLength resp = Some (js (NilEmpty.string_of_uint (Nat.to_uint n))) ->
  totalOf resp = Num (Z.of_nat n).
Proof.
  intros _ H. unfold totalOf. rewrite H.
  assert (Hne : Nat.to_uint n <> Decimal.Nil).
  { rewrite <- (DecimalNat.Unsigned.of_to n) at 1.
    rewrite DecimalNat.Unsigned.to_of. apply DecimalFacts.unorm_nonnil. }
  rewrite bool_decide_eq_false_2.
  - rewrite parseInt_of_uint by assumption.
    now rewrite DecimalNat.Unsigned.of_to.
  - destruct (Nat.to_uint n); [congruence|..]; discriminate.
Qed.

Lemma announced_total_witness :
  totalOf (Samples.response (Some (js "1024")) None (Throw (js "SyntaxError")))
  = Num (Z.of_nat 1024).
Proof.
  apply (announced_total _ 1024); [lia|reflexivity].
Defined.

End S3Extra.

Module ZipExtra.
Import Str StrFacts Zip ZipFacts.

(** *** Handles are only ever added *)

Lemma materialize_grows z files :
  forall am u u' r,
    materialize z files am u = (u', r) ->
    exists created,
      live u' = live u ++ created /\
      next_id u' = next_id u + length created /\
      map fst created = Handles.issued (next_id u) (length created).
Proof.
  induction files as [|n files IH]; intros am u u' r.
  - simpl. unfold ret. intros [= <- <-]. exists []. simpl.
    rewrite app_nil_r. repeat split. lia.
  - rewrite materialize_cons.
    destruct (truthy (mimeOf n)); [|apply IH].
    unfold bind, createBlobUrl.
    destruct (file z n) as [f|]; [|apply IH].
    unfold bind, await.
    destruct (async_blob f) as [b|e].
    + unfold createObjectURL. rewrite truthy_blobUrl. intros H.
      apply IH in H. destruct H as (created & Hl & Hn & Hu). simpl in *.
      exists ((blobUrl (next_id u), {| blob_type := mimeOf n; blob_bytes := b |}) :: created).
      rewrite Hl, Hn, <- app_assoc. simpl. repeat split; [lia|].
      unfold Handles.issued in *. simpl. now rewrite Hu.
    + intros [= <- <-]. exists []. simpl. rewrite app_nil_r. repeat split. lia.
Qed.

Lemma processZipContent_grows (loaded : outcome JSZip) (u u' : UrlStore)
    (r : outcome jsstring) :
  processZipContent loaded u = (u', r) ->
  exists created,
    live u' = live u ++ created /\
    next_id u' = next_id u + length created /\
    map fst created = Handles.issued (next_id u) (length created).
Proof.
  unfold processZipContent, bind, await, throw.
  assert (Hnone : exists created, live u = live u ++ created /\
              next_id u = next_id u + length created /\
              map fst created = Handles.issued (next_id u) (length created)).
  { exists []. simpl. rewrite app_nil_r. repeat split. lia. }
  destruct loaded as [z|e]; [|intros [= <- _]; exact Hnone].
  destruct (entryFile z) as [entry|]; [|intros [= <- _]; exact Hnone].
  destruct (async_string entry) as [html|e]; [|intros [= <- _]; exact Hnone].
  destruct (materialize z (keys z) [] u) as [u1 [am|e]] eqn:E; unfold ret;
    intros [= <- _]; now apply materialize_grows in E.
Qed.

(** X12: whatever the archive and however the resolution ends, the
    URLs live before it are still live after it, in the same order: the
    resolver only adds handles, under the next serial numbers, and
    releases none. *)
Theorem resolution_only_adds_handles (loaded : outcome JSZip) (u u' : UrlStore)
    (r : outcome jsstring) :
  processZipContent loaded u = (u', r) ->
  exists created,
    live u' = live u ++ created /\
    next_id u' = next_id u + length created /\
    map fst created = Handles.issued (next_id u) (length created).
Proof. apply processZipContent_grows. Qed.

Lemma resolution_only_adds_handles_witness :
  exists created,
    live Samples.oneUrl = live Samples.noUrls ++ created /\
    next_id Samples.oneUrl = next_id Samples.noUrls + length created /\
    map fst created = Handles.issued (next_id Samples.noUrls) (length created).
Proof.
  apply (resolution_only_adds_handles (Ok Samples.halfRead) Samples.noUrls Samples.oneUrl
           (Throw (js "Corrupted zip"))).
  reflexivity.
Defined.

(** *** The entry point *)

Lemma lower_upper c : lower_char (upper_ascii c) = lower_char c.
Proof. destruct c as [[] [] [] [] [] [] [] []]; reflexivity. Qed.

Lemma toLowerCase_upper s : toLowerCase (map upper_ascii s) = toLowerCase s.
Proof.
  unfold toLowerCase. rewrite List.map_map. apply List.map_ext. apply lower_upper.
Qed.

Lemma html_is_no_asset n p : toLowerCase n = p ++ js ".html" -> mimeOf n = [].
Proof.
  intros H. unfold mimeOf. rewrite H.
  repeat match goal with
  | |- context [endsWith (p ++ ?a) ?e] =>
      let E := fresh "E" in
      destruct (endsWith (p ++ a) e) eqn:E;
      [apply endsWith_app in E; vm_compute in E; destruct E; discriminate|]
  end.
  reflexivity.
Qed.

(** X14: the entry point, when there is one, is an entry of the
    archive, is not a directory, has a lowercased name that ends in
    .html, and is not one of the assets: no handle is made for it. *)
Theorem entry_point_is_a_page (z : JSZip) (o : ZipObject) :
  entryFile z = Some o ->
  In o z /\ dir o = false /\
  (exists p, toLowerCase (name o) = p ++ js ".html") /\
  isAsset o = false.
Proof.
  intros H.
  assert (Hmain : In o z /\ dir o = false /\
                  exists p, toLowerCase (name o) = p ++ js ".html").
  { unfold entryFile, file_re in H.
    destruct (List.filter _ z) as [|o' l] eqn:E1.
    - destruct (List.filter is_html (keys z)) as [|n l] eqn:E2; [discriminate|].
      unfold file in H.
      destruct (List.find _ z) as [o'|] eqn:E3; [|discriminate].
      destruct (dir o') eqn:Hd; [discriminate|]. injection H as ->.
      apply find_some in E3. destruct E3 as [Hin Hn].
      apply bool_decide_eq_true in Hn.
      assert (Hh : In n (List.filter is_html (keys z))) by (rewrite E2; now left).
      apply filter_In in Hh. destruct Hh as [_ Hh]. rewrite <- Hn in Hh.
      apply htmlName_test in Hh. auto.
    - injection H as ->.
      assert (Ho : In o (List.filter
                (fun o => negb (bool_decide (name o = [])) && negb (dir o)
                          && re_index_html (name o)) z)) by (rewrite E1; now left).
      apply filter_In in Ho. destruct Ho as [Hin Ho].
      apply rootIndex_test in Ho. destruct Ho as [Hd Hn].
      repeat split; try assumption.
      exists (js "index"). rewrite <- toLowerCase_upper, Hn. reflexivity. }
  destruct Hmain as (Hin & Hd & p & Hp). repeat split; try assumption; [now exists p|].
  unfold isAsset. rewrite (html_is_no_asset _ _ Hp). apply andb_false_r.
Qed.

Lemma entry_point_is_a_page_witness :
  In (Samples.entry "index.html" Samples.page) Samples.archive /\
  dir (Samples.entry "index.html" Samples.page) = false /\
  (exists p, toLowerCase (name (Samples.entry "index.html" Samples.page)) = p ++ js ".html") /\
  isAsset (Samples.entry "index.html" Samples.page) = false.
Proof.
  apply (entry_point_is_a_page Samples.archive). reflexivity.
Defined.

(** *** When the resolution succeeds *)

Lemma firstFailure_readable l :
  (forall o, In o l -> exists b, async_blob o = Ok b) -> firstFailure l = None.
Proof.
  induction l as [|o l IH]; simpl; [reflexivity|].
  intros H. destruct (H o (or_introl eq_refl)) as [b ->].
  apply IH. intros x Hx. apply H. now right.
Qed.

(** X15: for an archive with distinct entry names, the resolution
    succeeds as soon as the entry point can be read as text and every
    asset can be read; entries of other kinds need not be readable.  It
    then registers one handle per asset. *)
Theorem resolution_succeeds (z : JSZip) (u : UrlStore) entry html :
  NoDup (keys z) ->
  entryFile z = Some entry ->
  async_string entry = Ok html ->
  (forall o, In o z -> isAsset o = true -> exists b, async_blob o = Ok b) ->
  exists u' out,
    processZipContent (Ok z) u = (u', Ok out) /\
    length (live u') = length (live u) + length (List.filter isAsset z).
Proof.
  intros Hnd He Hs Hread.
  destruct (processZipContent_run z u entry html Hnd He Hs) as (u' & Hrun & Hlive).
  assert (Hf : firstFailure (List.filter isAsset z) = None).
  { apply firstFailure_readable. intros o Ho. apply filter_In in Ho.
    destruct Ho. auto. }
  rewrite Hf in Hrun. eexists u', _. split; [exact Hrun|].
  rewrite Hlive, length_app, handlesFor_length by assumption. reflexivity.
Qed.

Lemma resolution_succeeds_witness :
  exists u' out,
    processZipContent
      (Ok [Samples.entry "index.html" Samples.page; Samples.entry "logo.png" [];
           Samples.corrupt "movie.gif"]) Samples.noUrls = (u', Ok out) /\
    length (live u')
    = length (live Samples.noUrls)
      + length (List.filter isAsset
                  [Samples.entry "index.html" Samples.page; Samples.entry "logo.png" [];
                   Samples.corrupt "movie.gif"]).
Proof.
  apply (resolution_succeeds
           [Samples.entry "index.html" Samples.page; Samples.entry "logo.png" [];
            Samples.corrupt "movie.gif"]
           Samples.noUrls (Samples.entry "index.html" Samples.page) Samples.page).
  - apply (bool_decide_unpack _). vm_compute. exact I.
  - reflexivity.
  - reflexivity.
  - intros o [<-|[<-|[<-|[]]]] Ha; try discriminate. exists []. reflexivity.
Defined.

(** *** Texts without references *)

Lemma includes_cons c s x :
  Text.includes (c :: s) x = startsWith (c :: s) x || Text.includes s x.
Proof. reflexivity. Qed.

Lemma afterAttr_head nm attr s m :
  afterAttr nm attr s = Some m -> startsWith s (attr ++ js "=") = true.
Proof.
  unfold afterAttr.
  destruct (stripPrefix attr s) as [s0|] eqn:E0; [|discriminate].
  destruct (stripPrefix (js "=") s0) as [s1|] eqn:E1; [|discriminate].
  intros _. apply stripPrefix_Some in E0, E1. subst.
  apply startsWith_spec. exists s1. now rewrite <- app_assoc.
Qed.

Lemma replaceFrom_no_attribute nm tpl :
  forall s pre,
    Text.includes s (js "src=") = false ->
    Text.includes s (js "href=") = false ->
    replaceFrom nm tpl pre s = s.
Proof.
  induction s as [|c s IH]; intros pre H1 H2.
  - now simp replaceFrom.
  - rewrite includes_cons in H1, H2.
    apply orb_false_iff in H1, H2. destruct H1 as [H1 H1'], H2 as [H2 H2'].
    rewrite replaceFrom_cons.
    destruct (exec nm (c :: s)) as [m|] eqn:E.
    + exfalso. unfold exec in E.
      destruct (afterAttr nm (js "src") (c :: s)) as [m'|] eqn:Es.
      * apply afterAttr_head in Es. change (js "src" ++ js "=") with (js "src=") in Es.
        congruence.
      * apply afterAttr_head in E. change (js "href" ++ js "=") with (js "href=") in E.
        congruence.
    + now rewrite IH.
Qed.

(** X16: a text in which neither src= nor href= occurs comes out of
    the rewriting unchanged, whatever the assets and their locators. *)
Theorem no_attribute_no_rewriting (html : jsstring) (am : list (jsstring * jsstring)) :
  Text.includes html (js "src=") = false ->
  Text.includes html (js "href=") = false ->
  fold_left replaceAsset am html = html.
Proof.
  intros H1 H2. induction am as [|a am IH]; simpl; [reflexivity|].
  unfold replaceAsset at 2. now rewrite replaceFrom_no_attribute.
Qed.

Lemma no_attribute_no_rewriting_witness :
  fold_left replaceAsset [(js "logo.png", js "blob:0")] (js "<p>logo.png $1</p>")
  = js "<p>logo.png $1</p>".
Proof.
  apply (no_attribute_no_rewriting (js "<p>logo.png $1</p>")); reflexivity.
Defined.

End ZipExtra.

Module SettingsExtra.
Import Str StrFacts S3 Text SettingsModal.

(** A text that is empty or starts with a character that is not white space. *)
Lemma trimStart_head s :
  match trimStart s with [] => True | c :: _ => isWhite c = false end.
Proof.
  induction s as [|c s IH]; simpl; [exact I|].
  destruct (isWhite c) eqn:E; [exact IH|exact E].
Qed.

Lemma trimStart_id s :
  match s with [] => True | c :: _ => isWhite c = false end -> trimStart s = s.
Proof. destruct s as [|c s]; simpl; [reflexivity|]. now intros ->. Qed.

Lemma trimStart_suffix s : exists w, s = w ++ trimStart s.
Proof.
  induction s as [|c s [w IH]]; simpl; [now exists []|].
  destruct (isWhite c); [|now exists []].
  exists (c :: w). simpl. now rewrite <- IH.
Qed.

Lemma trim_ends s :
  match trim s with [] => True | c :: _ => isWhite c = false end /\
  match rev (trim s) with [] => True | c :: _ => isWhite c = false end.
Proof.
  unfold trim, trimEnd. rewrite rev_involutive. split; [|apply trimStart_head].
  pose proof (trimStart_head s) as Ha.
  destruct (trimStart_suffix (rev (trimStart s))) as [w Hw].
  apply (f_equal (@rev ascii)) in Hw. rewrite rev_involutive, rev_app_distr in Hw.
  destruct (rev (trimStart (rev (trimStart s)))) as [|c t]; [exact I|].
  rewrite Hw in Ha. exact Ha.
Qed.

Lemma trim_id s :
  match s with [] => True | c :: _ => isWhite c = false end ->
  match rev s with [] => True | c :: _ => isWhite c = false end ->
  trim s = s.
Proof.
  intros H1 H2. unfold trim, trimEnd.
  rewrite (trimStart_id s H1), (trimStart_id (rev s) H2). apply rev_involutive.
Qed.

(** X17: the URL handed to [onSave] has no white space at either end
    and is empty or starts with http; submitting it again gives the
    same configuration. *)
Theorem handleSubmit_normalises (input : jsstring) :
  (App.url (handleSubmit input) = [] \/
   startsWith (App.url (handleSubmit input)) (js "http") = true) /\
  trim (App.url (handleSubmit input)) = App.url (handleSubmit input) /\
  handleSubmit (App.url (handleSubmit input)) = handleSubmit input.
Proof.
  destruct (trim_ends input) as [Hh Hl].
  assert (Hcases : (App.url (handleSubmit input) = trim input /\
                    (trim input = [] \/ startsWith (trim input) (js "http") = true)) \/
                   (App.url (handleSubmit input) = js "https://" ++ trim input /\
                    trim input <> [])).
  { unfold handleSubmit. cbn [App.url].
    destruct (trim input) as [|c t] eqn:E; cbn [Zip.truthy andb]; [left; auto|].
    destruct (startsWith (c :: t) (js "http")); cbn [negb]; [left; auto|right].
    split; [reflexivity|discriminate]. }
  assert (H1 : App.url (handleSubmit input) = [] \/
               startsWith (App.url (handleSubmit input)) (js "http") = true).
  { destruct Hcases as [[-> H]|[-> _]]; [exact H|right; reflexivity]. }
  assert (H2 : trim (App.url (handleSubmit input)) = App.url (handleSubmit input)).
  { destruct Hcases as [[-> _]|[-> Hne]].
    - now apply trim_id.
    - apply trim_id; [reflexivity|].
      rewrite rev_app_distr.
      destruct (rev (trim input)) as [|c t] eqn:E; [|exact Hl].
      apply (f_equal (@rev ascii)) in E. rewrite rev_involutive in E. contradiction. }
  split; [exact H1|]. split; [exact H2|].
  assert (Heta : handleSubmit input = {| App.url := App.url (handleSubmit input) |})
    by now destruct (handleSubmit input).
  rewrite Heta at 2. clear Heta Hcases.
  revert H1 H2. generalize (App.url (handleSubmit input)). intros r H1 H2.
  unfold handleSubmit. rewrite H2. f_equal.
  destruct H1 as [-> | ->]; [reflexivity|]. now rewrite andb_false_r.
Qed.

Example handleSubmit_adds_scheme :
  handleSubmit (js "  d1234.cloudfront.net ") = {| App.url := js "https://d1234.cloudfront.net" |}.
Proof. reflexivity. Qed.

End SettingsExtra.

Module LibraryExtra.
Import Str StrFacts Types Library.

(** *** [fetchFiles] *)

Lemma Forall2_map_same {A B} (g : A -> B) (R : A -> B -> Prop) l :
  (forall a, R a (g a)) -> Forall2 R l (map g l).
Proof. intros H. induction l; simpl; constructor; auto. Qed.

(** X18: when the listing succeeds and the database answers, the list
    shown has one item per listed item, in order, differing from it in
    the status only: ready when the item's key is a key of the store,
    remote otherwise.  The loading flag is off, no error is shown, and
    nothing else in the view changes. *)
Theorem fetchFiles_marks_stored fetch (cfg : App.AppConfig) (v : View) items :
  S3.fetchFileList fetch (App.url cfg) = Ok items ->
  loading (fetchFiles fetch DB.NoFault cfg v) = false /\
  error (fetchFiles fetch DB.NoFault cfg v) = None /\
  Forall2 (fun it f =>
             f = withStatus (status f) it /\
             (status f = ready \/ status f = remote) /\
             (status f = ready <->
              exists k, key it = VString k /\ is_Some (store v !! k)))
    items (files (fetchFiles fetch DB.NoFault cfg v)) /\
  store (fetchFiles fetch DB.NoFault cfg v) = store v /\
  urls (fetchFiles fetch DB.NoFault cfg v) = urls v /\
  playingContent (fetchFiles fetch DB.NoFault cfg v) = playingContent v /\
  isProcessing (fetchFiles fetch DB.NoFault cfg v) = isProcessing v /\
  alerts (fetchFiles fetch DB.NoFault cfg v) = alerts v.
Proof.
  intros H. unfold fetchFiles. rewrite H. simpl.
  repeat split.
  apply Forall2_map_same. intros it.
  split; [reflexivity|]. simpl.
  destruct (has _ (key it)) eqn:Eh.
  - split; [now left|]. split; [intros _|reflexivity].
    unfold has in Eh. destruct (key it) as [| | | |k| |]; try discriminate.
    apply bool_decide_eq_true in Eh. apply DBExtra.keys_spec in Eh. eauto.
  - split; [now right|]. split; [discriminate|].
    intros (k & Hk & Hs). exfalso. unfold has in Eh. rewrite Hk in Eh.
    apply bool_decide_eq_false in Eh. apply Eh. now apply DBExtra.keys_spec.
Qed.

Lemma fetchFiles_marks_stored_witness :
  loading (fetchFiles
     (fun _ => Ok (Samples.response None None
        (Ok (VArray [VObject [(js "file", VString (js "demo.zip"))]]))))
     DB.NoFault Samples.config
     {| files := []; loading := true; error := None; playingContent := None;
        isProcessing := false; alerts := []; urls := Samples.noUrls;
        store := {[ js "demo.zip" := DB.SBytes [] ]} |}) = false.
Proof.
  apply (fetchFiles_marks_stored
     (fun _ => Ok (Samples.response None None
        (Ok (VArray [VObject [(js "file", VString (js "demo.zip"))]]))))
     Samples.config
     {| files := []; loading := true; error := None; playingContent := None;
        isProcessing := false; alerts := []; urls := Samples.noUrls;
        store := {[ js "demo.zip" := DB.SBytes [] ]} |}
     [ {| id := VString (js "demo.zip"); key := VString (js "demo.zip");
          title := VString (js "demo.zip"); sizeLabel := VString (js "Unknown");
          thumbnailUrl := None; status := remote; downloadProgress := None;
          errorMsg := None; localUrl := None |} ]).
  reflexivity.
Defined.

(** X19: when the database or the listing fails, the list shown is
    left as it was, the loading flag is off, the object store is
    untouched and an error text that is not empty is shown.  The text
    is the message of the database error, of the rejected fetch or of
    the JSON parser, a fixed text standing in for a message that is
    empty; for a response that is not ok and for a body that is not an
    array it is the text the service gives.  For a failure inside the
    mapping of the elements the wording is the engine's own. *)
Theorem fetchFiles_failure_keeps_list fetch fault (cfg : App.AppConfig) (v : View) :
  fault <> DB.NoFault \/ (exists msg, S3.fetchFileList fetch (App.url cfg) = Throw msg) ->
  files (fetchFiles fetch fault cfg v) = files v /\
  loading (fetchFiles fetch fault cfg v) = false /\
  store (fetchFiles fetch fault cfg v) = store v /\
  (exists m, error (fetchFiles fetch fault cfg v) = Some m /\ m <> []) /\
  (forall msg, fault = DB.OpenError msg \/ fault = DB.RequestError msg ->
     error (fetchFiles fetch fault cfg v)
       = Some (if Zip.truthy msg then msg else listError)) /\
  (fault = DB.NoFault ->
   (forall msg, fetch (S3.joinUrl (App.url cfg) (js "library.json")) = Throw msg ->
      error (fetchFiles fetch fault cfg v)
        = Some (if Zip.truthy msg then msg else listError)) /\
   (forall resp, fetch (S3.joinUrl (App.url cfg) (js "library.json")) = Ok resp ->
      S3.ok resp = false ->
      error (fetchFiles fetch fault cfg v)
        = Some (if (S3.http_status resp =? 404)%Z
                then js "library.json not found at this URL."
                else js "Failed to load library: " ++ S3.statusText resp)) /\
   (forall resp msg, fetch (S3.joinUrl (App.url cfg) (js "library.json")) = Ok resp ->
      S3.ok resp = true -> S3.json resp = Throw msg ->
      error (fetchFiles fetch fault cfg v)
        = Some (if Zip.truthy msg then msg else listError)) /\
   (forall resp data, fetch (S3.joinUrl (App.url cfg) (js "library.json")) = Ok resp ->
      S3.ok resp = true -> S3.json resp = Ok data ->
      (forall items, data <> VArray items) ->
      error (fetchFiles fetch fault cfg v)
        = Some (js "Invalid library format. Expected a JSON array."))).
Proof.
  intros H.
  assert (Hmsg : forall msg : jsstring,
            (if Zip.truthy msg then msg else listError) <> []).
  { intros [|c m]; simpl; discriminate. }
  destruct fault as [|e|e].
  - destruct H as [Hf|[msg Hl]]; [congruence|].
    unfold fetchFiles. cbn [DB.getStoredKeys DB.openDB DB.request]. rewrite Hl.
    cbn [files loading store error setListing].
    split; [reflexivity|]. split; [reflexivity|]. split; [reflexivity|].
    split; [eauto|]. split; [intros m [Hm|Hm]; discriminate|].
    intros _. unfold S3.fetchFileList, S3.bindO in Hl.
    split; [|split; [|split]].
    + intros m Hm. rewrite Hm in Hl. now injection Hl as <-.
    + intros resp Hr Hok. rewrite Hr, Hok in Hl. cbn [negb] in Hl.
      destruct (S3.http_status resp =? 404)%Z; now injection Hl as <-.
    + intros resp m Hr Hok Hj. rewrite Hr, Hok, Hj in Hl. cbn [negb] in Hl.
      now injection Hl as <-.
    + intros resp data Hr Hok Hj Hna. rewrite Hr, Hok, Hj in Hl. cbn [negb] in Hl.
      destruct data as [| | | | |items|]; try (now injection Hl as <-).
      now destruct (Hna items).
  - unfold fetchFiles. cbn [DB.getStoredKeys DB.openDB].
    cbn [files loading store error setListing].
    split; [reflexivity|]. split; [reflexivity|]. split; [reflexivity|].
    split; [eauto|]. split; [|discriminate].
    intros m [Hm|Hm]; [now injection Hm as <-|discriminate].
  - unfold fetchFiles. cbn [DB.getStoredKeys DB.openDB DB.request].
    cbn [files loading store error setListing].
    split; [reflexivity|]. split; [reflexivity|]. split; [reflexivity|].
    split; [eauto|]. split; [|discriminate].
    intros m [Hm|Hm]; [discriminate|now injection Hm as <-].
Qed.

Lemma fetchFiles_failure_keeps_list_witness :
  error (fetchFiles Samples.offline DB.NoFault Samples.config
     {| files := [Samples.demo]; loading := true; error := None; playingContent := None;
        isProcessing := false; alerts := []; urls := Samples.noUrls; store := ∅ |})
  = Some (js "Failed to fetch").
Proof.
  assert (Hfail : DB.NoFault <> DB.NoFault \/
            exists msg, S3.fetchFileList Samples.offline (App.url Samples.config) = Throw msg).
  { right. exists (js "Failed to fetch"). reflexivity. }
  exact (proj1 (proj2 (proj2 (proj2 (proj2 (proj2
    (fetchFiles_failure_keeps_list Samples.offline DB.NoFault Samples.config
       {| files := [Samples.demo]; loading := true; error := None; playingContent := None;
          isProcessing := false; alerts := []; urls := Samples.noUrls; store := ∅ |}
       Hfail))))) eq_refl) (js "Failed to fetch") eq_refl).
Defined.

(** *** [handlePlay] *)

Lemma update_kept k (g : FileItem -> FileItem) l :
  (forall x, key (g x) = key x /\ id (g x) = id x /\ title (g x) = title x) ->
  Forall2 (fun f f' => key f' = key f /\ id f' = id f /\ title f' = title f /\
                       (App.hasKey k f = false -> f' = f))
    l (App.update k g l).
Proof.
  intros Hg. unfold App.update. apply Forall2_map_same. intros f.
  destruct (App.hasKey k f) eqn:E.
  - destruct (Hg f) as (H1 & H2 & H3). repeat split; try assumption. discriminate.
  - repeat split.
Qed.

Lemma kept_refl k (l : list FileItem) :
  Forall2 (fun f f' => key f' = key f /\ id f' = id f /\ title f' = title f /\
                       (App.hasKey k f = false -> f' = f)) l l.
Proof. induction l; constructor; auto. Qed.

(** X20: a call of [handlePlay] leaves the object store, the loading
    flag and the listing error as they were, shows at most one alert,
    releases no blob URL, and changes no item with another key nor any
    item's key, id or title.  While the lock is held it changes nothing
    at all; otherwise the lock is free when it returns. *)
Theorem handlePlay_frame fault loadAsync (item : FileItem) (v v' : View) :
  handlePlay fault loadAsync item v = Some v' ->
  exists k,
    key item = VString k /\
    store v' = store v /\ loading v' = loading v /\ error v' = error v /\
    (alerts v' = alerts v \/ exists msg, alerts v' = alerts v ++ [msg]) /\
    (exists created, Zip.live (urls v') = Zip.live (urls v) ++ created) /\
    Forall2 (fun f f' => key f' = key f /\ id f' = id f /\ title f' = title f /\
                         (App.hasKey k f = false -> f' = f))
      (files v) (files v') /\
    (isProcessing v = true -> v' = v) /\
    (isProcessing v = false -> isProcessing v' = false).
Proof.
  unfold handlePlay. destruct (key item) as [| | | |k| |]; try discriminate.
  intros [= <-]. exists k. split; [reflexivity|].
  assert (Hsame : exists created, Zip.live (urls v) = Zip.live (urls v) ++ created)
    by (exists []; now rewrite app_nil_r).
  destruct (isProcessing v) eqn:Hp.
  { repeat split; auto; try discriminate. apply kept_refl. }
  assert (Hcaught : forall msg u,
            (exists created, Zip.live u = Zip.live (urls v) ++ created) ->
            let w := setIsProcessing false (caught k msg (setUrls u (setIsProcessing true v))) in
            store w = store v /\ loading w = loading v /\ error w = error v /\
            (alerts w = alerts v \/ exists m, alerts w = alerts v ++ [m]) /\
            (exists created, Zip.live (urls w) = Zip.live (urls v) ++ created) /\
            Forall2 (fun f f' => key f' = key f /\ id f' = id f /\ title f' = title f /\
                                 (App.hasKey k f = false -> f' = f))
              (files v) (files w) /\
            (false = true -> w = v) /\ (false = false -> isProcessing w = false)).
  { intros msg u Hu. unfold caught. destruct (Text.includes msg _); simpl.
    - repeat split; eauto; try discriminate.
      apply update_kept. intros x. simpl. auto.
    - repeat split; eauto; try discriminate. apply kept_refl. }
  assert (Hplay : forall c u fs,
            (exists created, Zip.live u = Zip.live (urls v) ++ created) ->
            Forall2 (fun f f' => key f' = key f /\ id f' = id f /\ title f' = title f /\
                                 (App.hasKey k f = false -> f' = f)) (files v) fs ->
            let w := setIsProcessing false
                       (play item c (setFiles (fun _ => fs) (setUrls u (setIsProcessing true v)))) in
            store w = store v /\ loading w = loading v /\ error w = error v /\
            (alerts w = alerts v \/ exists m, alerts w = alerts v ++ [m]) /\
            (exists created, Zip.live (urls w) = Zip.live (urls v) ++ created) /\
            Forall2 (fun f f' => key f' = key f /\ id f' = id f /\ title f' = title f /\
                                 (App.hasKey k f = false -> f' = f))
              (files v) (files w) /\
            (false = true -> w = v) /\ (false = false -> isProcessing w = false)).
  { intros c u fs Hu Hfs. unfold play. destruct (Zip.truthy c); simpl;
      repeat split; eauto; discriminate. }
  destruct (localUrl item) as [[|c url]|] eqn:El.
  2:{ unfold play. simpl. repeat split; auto; try discriminate. apply kept_refl. }
  all: cbv zeta; change (store (setIsProcessing true v)) with (store v);
    (destruct (DB.getFileFromDB fault k (store v)) as [[zipData|]|msg];
     [|apply (Hcaught notInStorage (urls v) Hsame)
      |apply (Hcaught msg (urls v) Hsame)]);
    change (urls (setIsProcessing true v)) with (urls v);
    (destruct (Zip.processZipContent (loadAsync zipData) (urls v)) as [u [html|msg]] eqn:E;
     apply ZipExtra.processZipContent_grows in E;
     destruct E as (created & Hl & _);
     [|apply Hcaught; eauto]);
    apply (Hplay html u
             (App.update k (withLocalUrl html) (files v))); eauto;
    apply update_kept; intros x; simpl; auto.
Qed.

Lemma handlePlay_frame_witness :
  exists k,
    key LibrarySamples.downloaded = VString k /\
    store LibrarySamples.afterMissing = store (LibrarySamples.view None) /\
    loading LibrarySamples.afterMissing = loading (LibrarySamples.view None) /\
    error LibrarySamples.afterMissing = error (LibrarySamples.view None) /\
    (alerts LibrarySamples.afterMissing = alerts (LibrarySamples.view None) \/
     exists msg, alerts LibrarySamples.afterMissing
                 = alerts (LibrarySamples.view None) ++ [msg]) /\
    (exists created, Zip.live (urls LibrarySamples.afterMissing)
                     = Zip.live (urls (LibrarySamples.view None)) ++ created) /\
    Forall2 (fun f f' => key f' = key f /\ id f' = id f /\ title f' = title f /\
                         (App.hasKey k f = false -> f' = f))
      (files (LibrarySamples.view None)) (files LibrarySamples.afterMissing) /\
    (isProcessing (LibrarySamples.view None) = true ->
     LibrarySamples.afterMissing = LibrarySamples.view None) /\
    (isProcessing (LibrarySamples.view None) = false ->
     isProcessing LibrarySamples.afterMissing = false).
Proof.
  apply (handlePlay_frame DB.NoFault (LibrarySamples.unzip Samples.archive)
           LibrarySamples.downloaded (LibrarySamples.view None)
           LibrarySamples.afterMissing).
  reflexivity.
Defined.

(** X21: when the stored bytes are missing, or the database fails with
    a message that contains the words not found, every item with the
    key goes back to the status remote, one alert says that the file
    data is missing, nothing is played and the lock is free again. *)
Theorem handlePlay_missing_data fault loadAsync (item : FileItem) (v : View) k :
  key item = VString k ->
  isProcessing v = false ->
  localUrl item = None \/ localUrl item = Some [] ->
  DB.getFileFromDB fault k (store v) = Ok None \/
  (exists msg, DB.getFileFromDB fault k (store v) = Throw msg /\
               Text.includes msg (js "not found") = true) ->
  exists v',
    handlePlay fault loadAsync item v = Some v' /\
    files v' = App.update k (withStatus remote) (files v) /\
    alerts v' = alerts v ++ [js "File data missing. Please download again."] /\
    playingContent v' = playingContent v /\
    isProcessing v' = false /\
    urls v' = urls v /\ store v' = store v.
Proof.
  intros Hk Hp Hl Hdb. unfold handlePlay. rewrite Hk, Hp.
  eexists. split.
  - destruct Hl as [-> | ->]; reflexivity.
  - cbv zeta. change (store (setIsProcessing true v)) with (store v).
    destruct Hdb as [-> | (msg & -> & Hm)]; unfold caught;
      [change (Text.includes notInStorage (js "not found")) with true|rewrite Hm];
      simpl; repeat split.
Qed.

Lemma handlePlay_missing_data_witness :
  exists v',
    handlePlay DB.NoFault (LibrarySamples.unzip Samples.archive)
      LibrarySamples.downloaded (LibrarySamples.view None) = Some v' /\
    files v' = App.update (js "demo.zip") (withStatus remote)
                 (files (LibrarySamples.view None)) /\
    alerts v' = alerts (LibrarySamples.view None)
                  ++ [js "File data missing. Please download again."] /\
    playingContent v' = playingContent (LibrarySamples.view None) /\
    isProcessing v' = false /\
    urls v' = urls (LibrarySamples.view None) /\
    store v' = store (LibrarySamples.view None).
Proof.
  apply (handlePlay_missing_data DB.NoFault (LibrarySamples.unzip Samples.archive)
           LibrarySamples.downloaded (LibrarySamples.view None) (js "demo.zip"));
    try reflexivity; left; reflexivity.
Defined.

(** X22: when the stored archive cannot be resolved and the error
    message does not contain the words not found (as for an archive
    without HTML file), the items keep their status, one alert shows the
    message, nothing is played and the lock is free again; the handles
    made before the failure stay registered. *)
Theorem handlePlay_unresolvable fault loadAsync (item : FileItem) (v : View) k B u' msg :
  key item = VString k ->
  isProcessing v = false ->
  localUrl item = None \/ localUrl item = Some [] ->
  DB.getFileFromDB fault k (store v) = Ok (Some B) ->
  Zip.processZipContent (loadAsync B) (urls v) = (u', Throw msg) ->
  Text.includes msg (js "not found") = false ->
  exists v',
    handlePlay fault loadAsync item v = Some v' /\
    files v' = files v /\
    alerts v' = alerts v ++ [js "Failed to load content: " ++ msg] /\
    playingContent v' = playingContent v /\
    isProcessing v' = false /\
    urls v' = u'.
Proof.
  intros Hk Hp Hl Hdb Hrun Hm. unfold handlePlay. rewrite Hk, Hp.
  eexists. split.
  - destruct Hl as [-> | ->]; reflexivity.
  - cbv zeta. change (store (setIsProcessing true v)) with (store v).
    change (urls (setIsProcessing true v)) with (urls v).
    rewrite Hdb, Hrun. unfold caught. rewrite Hm. simpl. repeat split.
Qed.

Lemma handlePlay_unresolvable_witness :
  exists v',
    handlePlay DB.NoFault (LibrarySamples.unzip [Samples.entry "logo.png" []])
      LibrarySamples.downloaded
      (LibrarySamples.view (Some (DB.SBytes LibrarySamples.zipBytes))) = Some v' /\
    files v' = files (LibrarySamples.view (Some (DB.SBytes LibrarySamples.zipBytes))) /\
    alerts v' = alerts (LibrarySamples.view (Some (DB.SBytes LibrarySamples.zipBytes)))
                  ++ [js "Failed to load content: " ++ Zip.noHtmlMessage] /\
    playingContent v'
      = playingContent (LibrarySamples.view (Some (DB.SBytes LibrarySamples.zipBytes))) /\
    isProcessing v' = false /\
    urls v' = Samples.noUrls.
Proof.
  apply (handlePlay_unresolvable DB.NoFault
           (LibrarySamples.unzip [Samples.entry "logo.png" []])
           LibrarySamples.downloaded
           (LibrarySamples.view (Some (DB.SBytes LibrarySamples.zipBytes)))
           (js "demo.zip") LibrarySamples.zipBytes Samples.noUrls Zip.noHtmlMessage);
    try reflexivity. left. reflexivity.
Defined.

(** X23: when the stored archive resolves to a text that is not
    empty, that text is played under the item's title and is cached in
    every item with the key; playing such an item again replays the
    cached text without reading the database or the archive and without
    making any handle. *)
Theorem handlePlay_caches fault loadAsync (item : FileItem) (v : View) k B u' html :
  key item = VString k ->
  isProcessing v = false ->
  localUrl item = None \/ localUrl item = Some [] ->
  DB.getFileFromDB fault k (store v) = Ok (Some B) ->
  Zip.processZipContent (loadAsync B) (urls v) = (u', Ok html) ->
  html <> [] ->
  exists v',
    handlePlay fault loadAsync item v = Some v' /\
    playingContent v' = Some {| content_title := title item; content_url := html |} /\
    files v' = App.update k (withLocalUrl html) (files v) /\
    urls v' = u' /\ isProcessing v' = false /\ alerts v' = alerts v /\
    (forall fault' loadAsync' item',
        In item' (files v') -> App.hasKey k item' = true ->
        handlePlay fault' loadAsync' item' v' =
          Some (setPlayingContent
                  (Some {| content_title := title item'; content_url := html |}) v')).
Proof.
  intros Hk Hp Hl Hdb Hrun Hne. unfold handlePlay at 1. rewrite Hk, Hp.
  destruct html as [|c html]; [congruence|].
  eexists. split.
  - destruct Hl as [-> | ->]; reflexivity.
  - cbv zeta. change (store (setIsProcessing true v)) with (store v).
    change (urls (setIsProcessing true v)) with (urls v).
    rewrite Hdb, Hrun. unfold play. simpl.
    repeat split.
    intros fault' loadAsync' item' Hin Hkey.
    unfold App.update in Hin. apply in_map_iff in Hin.
    destruct Hin as (f & Hf & _).
    assert (Hitem : key item' = VString k /\ localUrl item' = Some (c :: html)).
    { unfold App.hasKey in Hkey.
      destruct (key item') as [| | | |k'| |] eqn:Ek; try discriminate.
      apply bool_decide_eq_true in Hkey. subst k'. split; [reflexivity|].
      destruct (App.hasKey k f) eqn:E; subst item'; [reflexivity|].
      unfold App.hasKey in E. rewrite Ek in E.
      rewrite bool_decide_eq_true_2 in E by reflexivity. discriminate. }
    destruct Hitem as [Hk' Hl']. unfold handlePlay. rewrite Hk', Hl'. reflexivity.
Qed.

Lemma handlePlay_caches_witness :
  exists v',
    handlePlay DB.NoFault (LibrarySamples.unzip Samples.archive) LibrarySamples.downloaded
      (LibrarySamples.view (Some (DB.SBytes LibrarySamples.zipBytes))) = Some v' /\
    playingContent v' = Some {| content_title := title LibrarySamples.downloaded;
                                content_url := Samples.resolvedPage |} /\
    files v' = App.update (js "demo.zip") (withLocalUrl Samples.resolvedPage)
                 (files (LibrarySamples.view (Some (DB.SBytes LibrarySamples.zipBytes)))) /\
    urls v' = Samples.oneUrl /\ isProcessing v' = false /\
    alerts v' = alerts (LibrarySamples.view (Some (DB.SBytes LibrarySamples.zipBytes))) /\
    (forall fault' loadAsync' item',
        In item' (files v') -> App.hasKey (js "demo.zip") item' = true ->
        handlePlay fault' loadAsync' item' v' =
          Some (setPlayingContent
                  (Some {| content_title := title item';
                           content_url := Samples.resolvedPage |}) v')).
Proof.
  apply (handlePlay_caches DB.NoFault (LibrarySamples.unzip Samples.archive)
           LibrarySamples.downloaded
           (LibrarySamples.view (Some (DB.SBytes LibrarySamples.zipBytes)))
           (js "demo.zip") LibrarySamples.zipBytes Samples.oneUrl Samples.resolvedPage);
    try reflexivity; [left; reflexivity|discriminate].
Defined.

(** *** [filteredFiles] *)

Lemma includes_empty s : Text.includes s [] = true.
Proof. destruct s; reflexivity. Qed.

(** X24: with an empty search text every item is listed, provided the
    titles are strings; the keys are then not even looked at. *)
Theorem empty_search_lists_all (l : list FileItem) :
  List.Forall (fun f => exists t, title f = VString t) l ->
  filteredFiles [] l = Ok l.
Proof.
  induction 1 as [|f l [t Ht] _ IH]; simpl; [reflexivity|].
  unfold matches, lowerOf. rewrite Ht. simpl toLowerCase.
  rewrite includes_empty, IH. reflexivity.
Qed.

Lemma empty_search_lists_all_witness :
  filteredFiles [] [App.with_status ready None
                      {| id := VNull; key := VNumber 7; title := VString (js "Demo");
                         sizeLabel := VNull; thumbnailUrl := None; status := remote;
                         downloadProgress := None; errorMsg := None; localUrl := None |}]
  = Ok [App.with_status ready None
          {| id := VNull; key := VNumber 7; title := VString (js "Demo");
             sizeLabel := VNull; thumbnailUrl := None; status := remote;
             downloadProgress := None; errorMsg := None; localUrl := None |}].
Proof.
  apply empty_search_lists_all. repeat constructor. exists (js "Demo"). reflexivity.
Defined.

End LibraryExtra.

Module AppExtra.
Import Types App AppFacts.

Lemma onProgress_store clock k received total s :
  store (onProgress clock k received total s) = store s.
Proof.
  unfold onProgress. destruct total as [|t]; [reflexivity|].
  now destruct ((100 <? clock (ticks s) - lastUpdate s)%Z && (0 <? t)%Z).
Qed.

(** What a download keeps of the state it started from. *)
Lemma download_keeps fetch clock cfg k s s2 r :
  S3.downloadFile fetch (Some (onProgress clock k)) (url cfg) k (start k s) = (s2, r) ->
  Forall2 (touched k) (files s) (files s2) /\ store s2 = store s.
Proof.
  intros Hrun. change s2 with (s2, r).1. rewrite <- Hrun.
  apply (downloadFile_keeps
           (fun x => Forall2 (touched k) (files s) (files x) /\ store x = store s)).
  - intros rc t x [H1 H2]. split; [now apply onProgress_touched|].
    now rewrite onProgress_store.
  - split; [|reflexivity]. unfold start. simpl.
    apply update_touched; [apply sameItem_with_status|].
    apply Forall_Forall2_diag, List.Forall_forall. intros f _. apply touched_refl.
Qed.

(** X25: when the download succeeds and the database takes the write,
    the bytes downloaded are stored under the key, reading the key back
    gives those bytes, and every item with the key is ready with no
    progress value, its identity unchanged; the other items are left
    as they were. *)
Theorem successful_download_is_stored fetch clock (cfg : AppConfig) (k : jsstring)
    (s s2 : State) (data : bytes) :
  S3.downloadFile fetch (Some (onProgress clock k)) (url cfg) k (start k s) = (s2, Ok data) ->
  store (handleDownload fetch clock DB.NoFault (Some cfg) k s)
    = <[k := DB.SBlob (js "application/zip") data]> (store s) /\
  DB.getFileFromDB DB.NoFault k (store (handleDownload fetch clock DB.NoFault (Some cfg) k s))
    = Ok (Some data) /\
  Forall2 (fun f f' =>
             if hasKey k f
             then sameItem f f' /\ status f' = ready /\ downloadProgress f' = None
             else f' = f)
    (files s) (files (handleDownload fetch clock DB.NoFault (Some cfg) k s)).
Proof.
  intros Hrun. destruct (download_keeps _ _ _ _ _ _ _ Hrun) as [Hinv Hst].
  unfold handleDownload. rewrite Hrun. simpl. rewrite Hst.
  split; [reflexivity|]. split.
  - unfold DB.getFileFromDB. simpl. now rewrite lookup_insert_eq.
  - unfold update. rewrite List.map_map.
    clear Hrun Hst. induction Hinv as [|f f' l l' Ht _ IH]; simpl; constructor; [|exact IH].
    rewrite (touched_hasKey _ _ _ Ht). destruct Ht as [Hs Hu].
    destruct (hasKey k f) eqn:Hk; simpl.
    + assert (Hk' : hasKey k (with_progress (Some 100%Z) f') = true).
      { unfold hasKey in *. simpl. destruct Hs as (_ & -> & _). exact Hk. }
      rewrite Hk'. simpl. repeat split; apply Hs.
    + rewrite (Hu eq_refl), Hk. reflexivity.
Qed.

Lemma successful_download_is_stored_witness :
  store (handleDownload Samples.twoChunks Samples.noon DB.NoFault (Some Samples.config)
           (js "demo.zip") Samples.catalog)
    = <[js "demo.zip" := DB.SBlob (js "application/zip") (Samples.chunk1 ++ Samples.chunk2)]>
        (store Samples.catalog).
Proof.
  apply (successful_download_is_stored Samples.twoChunks Samples.noon Samples.config
           (js "demo.zip") Samples.catalog
           (S3.downloadFile Samples.twoChunks (Some (onProgress Samples.noon (js "demo.zip")))
              (url Samples.config) (js "demo.zip")
              (start (js "demo.zip") Samples.catalog)).1
           (Samples.chunk1 ++ Samples.chunk2)).
  reflexivity.
Defined.








(** The quotient is rounded before it is scaled: 29 of 200 show as 14,
    not as 15. *)
Example percentage_rounds_twice :
  percentage 29 200 = 14%Z /\ percentage 2 5 = 40%Z /\ percentage 5 5 = 99%Z.
Proof. vm_compute. repeat split. Qed.

(** X27: with a configuration present, a download never leaves an
    item in the status downloading: every item with the key ends ready
    or in error, its identity unchanged, and the other items are left
    as they were.  Without a configuration nothing changes. *)
Theorem download_always_settles fetch clock fault (config : option AppConfig)
    (k : jsstring) (s : State) :
  match config with
  | Some _ =>
      Forall2 (fun f f' =>
                 touched k f f' /\
                 (hasKey k f = true -> status f' = ready \/ status f' = error))
        (files s) (files (handleDownload fetch clock fault config k s))
  | None => handleDownload fetch clock fault config k s = s
  end.
Proof.
  destruct config as [cfg|]; [|reflexivity].
  unfold handleDownload.
  destruct (S3.downloadFile fetch (Some (onProgress clock k)) (url cfg) k (start k s))
    as [s2 r] eqn:Hrun.
  destruct (download_keeps _ _ _ _ _ _ _ Hrun) as [Hinv _].
  assert (Hup : forall (g : FileItem -> FileItem) st l0 l',
            (forall x, sameItem x (g x) /\ status (g x) = st) ->
            st = ready \/ st = error ->
            Forall2 (touched k) l0 l' ->
            Forall2 (fun f f' => touched k f f' /\
                       (hasKey k f = true -> status f' = ready \/ status f' = error))
              l0 (update k g l')).
  { intros g st l0 l' Hg Hst H. unfold update.
    induction H as [|f f' l l'' Ht _ IH]; simpl; constructor; [|exact IH].
    pose proof (touched_hasKey _ _ _ Ht) as Hk. rewrite Hk.
    destruct (hasKey k f) eqn:E.
    - destruct (Hg f') as [Hs Hst']. split; [|intros _; now rewrite Hst'].
      destruct Ht as [Hs' Hu]. split; [|intros Hf; congruence].
      unfold sameItem in *. intuition congruence.
    - split; [exact Ht|intros Hf; congruence]. }
  destruct r as [zipData|msg]; simpl.
  - destruct (DB.saveFileToDB fault k zipData _) as [st [[]|e]] eqn:Es; simpl.
    + apply (Hup _ ready); [|now left|].
      * intros x. split; [apply sameItem_with_status|reflexivity].
      * apply update_touched; [intros x; apply sameItem_with_status|exact Hinv].
    + apply (Hup _ error); [|now right|].
      * intros x. split; [apply sameItem_with_error|reflexivity].
      * apply update_touched; [intros x; apply sameItem_with_status|exact Hinv].
  - apply (Hup _ error); [|now right|exact Hinv].
    intros x. split; [apply sameItem_with_error|reflexivity].
Qed.

End AppExtra.

Module PlayExtra.
Import Types.

(** X28: an item downloaded successfully is found when it is played:
    over the object store the download leaves, playing an item with the
    key that has no cached text hands exactly the downloaded bytes to
    the archive reader, and when those resolve to a text that is not
    empty, that text is played under the item's title and no alert is
    shown. *)
Theorem downloaded_item_is_played fetch clock loadAsync (cfg : App.AppConfig)
    (k : jsstring) (s s2 : App.State) (data : bytes) (item : FileItem)
    (v v' : Library.View) :
  S3.downloadFile fetch (Some (App.onProgress clock k)) (App.url cfg) k (App.start k s)
    = (s2, Ok data) ->
  Library.store v = App.store (App.handleDownload fetch clock DB.NoFault (Some cfg) k s) ->
  key item = VString k -> localUrl item = None -> Library.isProcessing v = false ->
  Library.handlePlay DB.NoFault loadAsync item v = Some v' ->
  Library.handlePlay DB.NoFault (fun _ => loadAsync data) item v = Some v' /\
  forall u c html,
    Zip.processZipContent (loadAsync data) (Library.urls v) = (u, Ok (c :: html)) ->
    Library.playingContent v'
      = Some {| Library.content_title := title item; Library.content_url := c :: html |} /\
    Library.alerts v' = Library.alerts v /\ Library.urls v' = u.
Proof.
  intros Hrun Hstore Hk Hl Hp Hplay.
  destruct (AppExtra.download_keeps _ _ _ _ _ _ _ Hrun) as [_ Hst].
  assert (Hget : DB.getFileFromDB DB.NoFault k (Library.store v) = Ok (Some data)).
  { rewrite Hstore. unfold App.handleDownload. rewrite Hrun. simpl. rewrite Hst.
    unfold DB.getFileFromDB. simpl. now rewrite lookup_insert_eq. }
  unfold Library.handlePlay in *. rewrite Hk, Hl, Hp in *.
  cbv zeta in *.
  change (Library.store (Library.setIsProcessing true v)) with (Library.store v) in *.
  rewrite Hget in *. split; [exact Hplay|].
  intros u c html Hres.
  change (Library.urls (Library.setIsProcessing true v)) with (Library.urls v) in Hplay.
  rewrite Hres in Hplay. injection Hplay as <-.
  unfold Library.play. cbn [Zip.truthy]. now repeat split.
Qed.

Lemma downloaded_item_is_played_witness :
  exists v',
    Library.handlePlay DB.NoFault (fun _ => LibrarySamples.unzip Samples.archive LibrarySamples.zipBytes)
      LibrarySamples.downloaded (LibrarySamples.view (Some (DB.SBlob (js "application/zip") LibrarySamples.zipBytes)))
      = Some v'.
Proof.
  eexists.
  apply (downloaded_item_is_played Samples.twoChunks Samples.noon
           (LibrarySamples.unzip Samples.archive) Samples.config (js "demo.zip")
           Samples.catalog
           (S3.downloadFile Samples.twoChunks
              (Some (App.onProgress Samples.noon (js "demo.zip")))
              (App.url Samples.config) (js "demo.zip")
              (App.start (js "demo.zip") Samples.catalog)).1
           LibrarySamples.zipBytes LibrarySamples.downloaded
           (LibrarySamples.view (Some (DB.SBlob (js "application/zip") LibrarySamples.zipBytes)))).
  - reflexivity.
  - vm_compute. reflexivity.
  - reflexivity.
  - reflexivity.
  - reflexivity.
  - reflexivity.
Defined.

End PlayExtra.
